(** * Gmail-Automation: the LangGraph workflow core

    A shallow embedding of [src/graph/state_types.py], [src/graph/nodes.py]
    and [src/graph/build_graph.py], with the properties of the workflow
    (classification, routing, run bookkeeping, log discipline) proved over it.
    The entry point [run_once] of [src/app/main.py] and the Gmail tools of
    [src/tools/gmail_tools.py] follow, with their own properties.

    Conventions.
    - A Python [str] is a [string]; characters are code points below 256.
    - A key of the [AgentState] TypedDict ([total=False]) is an [option]:
      [None] is "key absent".  A field typed [Optional[str]] is an
      [option (option string)]: present-with-[None] is [Some None].
    - A node mutates the state dictionary it is given and calls out to the
      agent and to the run repository.  Both are threaded through a small
      state-and-exception monad [M]; the store keeps the dictionary as it is
      at every point, also when an exception escapes.
    - Exceptions are instances of [Exception], identified by their [repr]. *)

From Stdlib Require Import String Ascii NArith Bool List Lia.
From stdpp Require Import base option list strings gmap.

Set Warnings "-register-all".

Local Open Scope string_scope.
Local Open Scope list_scope.

(** ** Python strings: [str.lower] and the [in] operator *)

Module PyStr.

(** [str.lower] on one code point below 256: [A-Z] and the Latin-1 capitals
    (U+00C0..U+00DE without the multiplication sign U+00D7) move up by 32. *)
Definition lower_char (c : ascii) : ascii :=
  let n := N_of_ascii c in
  if ((65 <=? n) && (n <=? 90))%N
     || ((192 <=? n) && (n <=? 222) && negb (n =? 215))%N
  then ascii_of_N (n + 32)
  else c.

Fixpoint lower (s : string) : string :=
  match s with
  | EmptyString => EmptyString
  | String c s' => String (lower_char c) (lower s')
  end.

(** [sub in s]: [sub] occurs in [s] as a contiguous substring. *)
Fixpoint contains (sub s : string) : bool :=
  String.prefix sub s
  || match s with
     | EmptyString => false
     | String _ s' => contains sub s'
     end.

(** Truthiness of a value fetched with [dict.get] from an [Optional[str]]
    field: [None] and the empty string are falsy. *)
Definition truthy (v : option string) : bool :=
  match v with
  | None => false
  | Some s => negb (String.eqb s "")
  end.

(** [v or ""] *)
Definition or_empty (v : option string) : string :=
  match v with
  | Some s => if String.eqb s "" then "" else s
  | None => ""
  end.

End PyStr.

(** ** The shared state ([src/graph/state_types.py]) *)

(** [result: Any]: the agent's output, an arbitrary JSON-like Python value. *)
Inductive Any : Type :=
  | PyNone
  | PyText (s : string)
  | PyList (items : list Any)
  | PyDict (items : list (string * Any)).

Record AgentState : Type := mkState {
  raw_input : option (option string);
  task : option string;
  run_id : option (option string);
  emails : option (list Any);
  result : option Any;
  log : option (list string)
}.

(** [state.get(key)] on an [Optional[str]] field: an absent key reads as
    [None]. *)
Definition dict_get (field : option (option string)) : option string :=
  match field with
  | Some v => v
  | None => None
  end.

Definition with_raw_input (v : option string) (s : AgentState) : AgentState :=
  mkState (Some v) (task s) (run_id s) (emails s) (result s) (log s).
Definition with_task (v : string) (s : AgentState) : AgentState :=
  mkState (raw_input s) (Some v) (run_id s) (emails s) (result s) (log s).
Definition with_run_id (v : option string) (s : AgentState) : AgentState :=
  mkState (raw_input s) (task s) (Some v) (emails s) (result s) (log s).
Definition with_result (v : Any) (s : AgentState) : AgentState :=
  mkState (raw_input s) (task s) (run_id s) (emails s) (Some v) (log s).
Definition with_log (v : list string) (s : AgentState) : AgentState :=
  mkState (raw_input s) (task s) (run_id s) (emails s) (result s) (Some v).

(** The log as a sequence: a state without the key has logged nothing. *)
Definition log_of (s : AgentState) : list string := default [] (log s).

(** ** Exceptions, external calls and the node monad *)

Inductive PyException : Type := Exception (repr : string).

Definition repr_of (e : PyException) : string :=
  match e with Exception r => r end.

Inductive Outcome (A : Type) : Type :=
  | Ok (a : A)
  | Raise (e : PyException).
Arguments Ok {A} a.
Arguments Raise {A} e.

(** One call that left the process, with what came back. *)
Inductive Call : Type :=
  | CreateRun (thread_id : option string) (task_name : string) (r : Outcome string)
  | UpdateStatus (rid : string) (status : string) (res : Any) (r : Outcome unit)
  | AgentInvoke (content : string) (r : Outcome Any).

(** The collaborators of [nodes.py]: [gmail_agent.invoke] and the two
    functions imported from [database.repositories].  Each answers as a
    function of the calls made so far, which covers any deterministic
    stateful service; each may raise. *)
Record Externals : Type := mkExternals {
  gmail_agent_invoke : list Call -> string -> Outcome Any;
  create_workflow_run : list Call -> option string -> string -> Outcome string;
  update_workflow_status : list Call -> string -> string -> Any -> Outcome unit
}.

(** The store a node runs in: the state dictionary it mutates in place and
    the history of external calls. *)
Record Store : Type := mkStore {
  st : AgentState;
  calls : list Call
}.

Definition M (A : Type) : Type := Store -> Outcome A * Store.

#[global] Instance M_ret : MRet M := fun A (a : A) (σ : Store) => (Ok a, σ).

#[global] Instance M_bind : MBind M := fun A B (k : A -> M B) (m : M A) (σ : Store) =>
  match m σ with
  | (Ok a, σ') => k a σ'
  | (Raise e, σ') => (Raise e, σ')
  end.

(** [try: body except Exception as exc: handler(exc)] *)
Definition try_except {A} (body : M A) (handler : PyException -> M A) : M A :=
  fun σ =>
    match body σ with
    | (Ok a, σ') => (Ok a, σ')
    | (Raise e, σ') => handler e σ'
    end.

Definition read_state : M AgentState := fun σ => (Ok (st σ), σ).

Definition modify_state (f : AgentState -> AgentState) : M unit :=
  fun σ => (Ok tt, mkStore (f (st σ)) (calls σ)).

(** [state.setdefault("log", [])] *)
Definition setdefault_log : M unit :=
  modify_state (fun s => match log s with
                         | Some _ => s
                         | None => with_log [] s
                         end).

(** [state["log"].append(line)]: subscripting a missing key raises. *)
Definition log_append (line : string) : M unit :=
  fun σ =>
    match log (st σ) with
    | Some l => (Ok tt, mkStore (with_log (l ++ [line]) (st σ)) (calls σ))
    | None => (Raise (Exception "KeyError('log')"), σ)
    end.

Definition newline : string := String (ascii_of_N 10) EmptyString.


Section Nodes.

Variable ext : Externals.

(** The three external calls, each recorded in the history with its outcome. *)
Definition call_gmail_agent (content : string) : M Any :=
  fun σ =>
    let r := gmail_agent_invoke ext (calls σ) content in
    (r, mkStore (st σ) (calls σ ++ [AgentInvoke content r])).

Definition call_create_workflow_run (thread_id : option string) (task_name : string)
  : M string :=
  fun σ =>
    let r := create_workflow_run ext (calls σ) thread_id task_name in
    (r, mkStore (st σ) (calls σ ++ [CreateRun thread_id task_name r])).

Definition call_update_workflow_status (rid status : string) (res : Any) : M unit :=
  fun σ =>
    let r := update_workflow_status ext (calls σ) rid status res in
    (r, mkStore (st σ) (calls σ ++ [UpdateStatus rid status res r])).

(** ** The nodes ([src/graph/nodes.py]) *)

Definition entry_node : M AgentState :=
  setdefault_log ;;
  log_append "entry_node: starting" ;;
  let thread_id : option string := None in
  rid ← call_create_workflow_run thread_id "unknown" ;
  modify_state (with_run_id (Some rid)) ;;
  log_append ("entry_node: created workflow_run run_id=" +:+ rid) ;;
  state ← read_state ;
  (if negb (PyStr.truthy (dict_get (raw_input state)))
   then modify_state (with_raw_input (Some "Process my inbox."))
   else mret tt) ;;
  read_state.

Definition task_router_node : M AgentState :=
  state ← read_state ;
  let text := PyStr.lower (PyStr.or_empty (dict_get (raw_input state))) in
  let task :=
    if PyStr.contains "summary" text || PyStr.contains "daily" text
    then "daily_summary"
    else "process_inbox" in
  modify_state (with_task task) ;;
  setdefault_log ;;
  log_append ("task_router_node: task set to '" +:+ task +:+ "'") ;;
  read_state.

Definition process_inbox_message (user_instruction : string) : string :=
  "Task: process_inbox" +:+ newline +:+ newline
  +:+ "Your job: Process the Gmail inbox. Fetch unread emails, classify them, "
  +:+ "ignore spam, apply appropriate labels (e.g., Client, Billing, Personal, Spam), "
  +:+ "and generate professional replies where needed." +:+ newline +:+ newline
  +:+ "User instruction: " +:+ user_instruction.

Definition process_inbox_node : M AgentState :=
  setdefault_log ;;
  log_append "process_inbox_node: invoking gmail_agent" ;;
  state ← read_state ;
  let user_instruction := PyStr.or_empty (dict_get (raw_input state)) in
  let message_content := process_inbox_message user_instruction in
  res ← call_gmail_agent message_content ;
  modify_state (with_result res) ;;
  log_append "process_inbox_node: gmail_agent finished" ;;
  state ← read_state ;
  let rid := dict_get (run_id state) in
  (if PyStr.truthy rid
   then
     (* a truthy [Optional[str]] is a non-empty [str] *)
     let rid := default "" rid in
     try_except
       (call_update_workflow_status rid "completed" res ;;
        log_append ("process_inbox_node: workflow_run " +:+ rid +:+ " marked as completed"))
       (fun exc =>
          log_append ("process_inbox_node: failed to update workflow status: "
                      +:+ repr_of exc))
   else mret tt) ;;
  read_state.

Definition daily_summary_message (user_instruction : string) : string :=
  "Task: daily_summary" +:+ newline +:+ newline
  +:+ "Your job: Create a concise daily summary of important emails. "
  +:+ "Highlight key threads, mention the sender and subject briefly, "
  +:+ "and assign a rough priority (High / Medium / Low) where appropriate."
  +:+ newline +:+ newline
  +:+ "User instruction: " +:+ user_instruction.

Definition daily_summary_node : M AgentState :=
  setdefault_log ;;
  log_append "daily_summary_node: invoking gmail_agent" ;;
  state ← read_state ;
  let user_instruction := PyStr.or_empty (dict_get (raw_input state)) in
  let message_content := daily_summary_message user_instruction in
  res ← call_gmail_agent message_content ;
  modify_state (with_result res) ;;
  log_append "daily_summary_node: gmail_agent finished" ;;
  state ← read_state ;
  let rid := dict_get (run_id state) in
  (if PyStr.truthy rid
   then
     let rid := default "" rid in
     try_except
       (call_update_workflow_status rid "completed" res ;;
        log_append ("daily_summary_node: workflow_run " +:+ rid +:+ " marked as completed"))
       (fun exc =>
          log_append ("daily_summary_node: failed to update workflow status: "
                      +:+ repr_of exc))
   else mret tt) ;;
  read_state.

End Nodes.

(** ** The graph ([src/graph/build_graph.py]) *)

(** What [StateGraph] collects: registered nodes, the entry point, plain
    edges and conditional edges (a path function with its path map). *)
Record StateGraph : Type := mkGraph {
  nodes : list (string * M AgentState);
  entry_point : option string;
  edges : list (string * string);
  conditional_edges : list (string * ((AgentState -> string) * list (string * string)))
}.

(** LangGraph's terminal marker. *)
Definition END : string := "__end__".

Definition new_graph : StateGraph := mkGraph [] None [] [].

Definition add_node (name : string) (fn : M AgentState) (g : StateGraph) : StateGraph :=
  mkGraph (nodes g ++ [(name, fn)]) (entry_point g) (edges g) (conditional_edges g).

Definition set_entry_point (name : string) (g : StateGraph) : StateGraph :=
  mkGraph (nodes g) (Some name) (edges g) (conditional_edges g).

Definition add_edge (src dst : string) (g : StateGraph) : StateGraph :=
  mkGraph (nodes g) (entry_point g) (edges g ++ [(src, dst)]) (conditional_edges g).

Definition add_conditional_edges (src : string) (path : AgentState -> string)
    (path_map : list (string * string)) (g : StateGraph) : StateGraph :=
  mkGraph (nodes g) (entry_point g) (edges g)
          (conditional_edges g ++ [(src, (path, path_map))]).

(** Conditional routing from [task_router], on [state["task"]]. *)
Definition route_by_task (state : AgentState) : string :=
  let task := task state in
  if decide (task = Some "daily_summary")
  then "daily_summary"
  else (* Default to process_inbox *) "process_inbox".

(** [build_app]: the graph as it is handed to [compile].  The checkpointer
    given to [compile] saves the state between steps and takes no part in
    what the nodes receive. *)
Definition build_app (ext : Externals) : StateGraph :=
  let graph := new_graph in
  let graph := add_node "entry" (entry_node ext) graph in
  let graph := add_node "task_router" task_router_node graph in
  let graph := add_node "process_inbox" (process_inbox_node ext) graph in
  let graph := add_node "daily_summary" (daily_summary_node ext) graph in
  let graph := set_entry_point "entry" graph in
  let graph := add_edge "entry" "task_router" graph in
  let graph :=
    add_conditional_edges "task_router" route_by_task
      [("process_inbox", "process_inbox"); ("daily_summary", "daily_summary")]
      graph in
  let graph := add_edge "process_inbox" END graph in
  let graph := add_edge "daily_summary" END graph in
  graph.

(** ** Running a compiled graph

    The sequential reading of the engine for graphs in which a step has one
    successor: run the current node on the state, replace the state by what
    the node returns, follow the node's plain edge or else its conditional
    edge, and stop at [END].  An exception raised by a node leaves the run. *)

Fixpoint assoc {V : Type} (k : string) (l : list (string * V)) : option V :=
  match l with
  | [] => None
  | (k', v) :: l' => if String.eqb k k' then Some v else assoc k l'
  end.

Definition successor (g : StateGraph) (cur : string) (s : AgentState) : option string :=
  match assoc cur (edges g) with
  | Some dst => Some dst
  | None =>
      match assoc cur (conditional_edges g) with
      | Some (path, path_map) => assoc (path s) path_map
      | None => None
      end
  end.

Inductive RunStatus : Type :=
  | Finished            (* reached [END] *)
  | Faulted (e : PyException)   (* a node raised *)
  | Stalled             (* unregistered node or no way on *)
  | OutOfFuel.

Record Run : Type := mkRun {
  run_status : RunStatus;
  visited : list string;
  final : Store
}.

Fixpoint drive (fuel : nat) (g : StateGraph) (cur : string) (σ : Store)
    (seen : list string) : Run :=
  match fuel with
  | O => mkRun OutOfFuel seen σ
  | S fuel' =>
      if String.eqb cur END then mkRun Finished seen σ
      else
        match assoc cur (nodes g) with
        | None => mkRun Stalled seen σ
        | Some node =>
            match node σ with
            | (Raise e, σ') => mkRun (Faulted e) (seen ++ [cur]) σ'
            | (Ok s', σ') =>
                match successor g cur s' with
                | None => mkRun Stalled (seen ++ [cur]) (mkStore s' (calls σ'))
                | Some nxt => drive fuel' g nxt (mkStore s' (calls σ')) (seen ++ [cur])
                end
            end
        end
  end.

(** [app.invoke(initial_state)] after the calls [h]. *)
Definition invoke (fuel : nat) (g : StateGraph) (initial_state : AgentState)
    (h : list Call) : Run :=
  match entry_point g with
  | Some start => drive fuel g start (mkStore initial_state h) []
  | None => mkRun Stalled [] (mkStore initial_state h)
  end.

(** Successors of a step over all states: the edges of the state machine. *)
Definition edge (g : StateGraph) (src dst : string) : Prop :=
  exists s, successor g src s = Some dst.

(** ** The run table *)

Module Ledger.

(** [WorkflowRun] of [database/models.py]: [status] is a string column that
    defaults to "running"; [finished_at] and [result] are nullable.  Times
    are logical: the number of external calls made before. *)
Record WorkflowRun : Type := mkWorkflowRun {
  run_id : string;
  thread_id : option string;
  task : option string;
  status : string;
  started_at : nat;
  finished_at : option nat;
  result : option Any
}.

(** Modelled from the spec: [database.repositories.create_workflow_run] is
    not among the sources.  Per the spec's Run Ledger, [create] stores a
    record under the generated id with status running, no finish time and
    no result. *)
Definition create (rid : string) (thread : option string) (task_name : string)
    (now : nat) (db : gmap string WorkflowRun) : gmap string WorkflowRun :=
  <[rid := mkWorkflowRun rid thread (Some task_name) "running" now None None]> db.

(** Modelled from the spec: [database.repositories.update_workflow_status]
    is not among the sources.  Per the spec's Run Ledger, [update_status]
    sets the status of the record, with the finish time and the result
    snapshot. *)
Definition update_status (rid new_status : string) (res : Any) (now : nat)
    (db : gmap string WorkflowRun) : gmap string WorkflowRun :=
  alter (fun r => mkWorkflowRun (run_id r) (thread_id r) (task r) new_status
                                (started_at r) (Some now) (Some res)) rid db.

(** The effect of one external call on the table: a call that raised wrote
    nothing, and the agent does not touch the table. *)
Definition apply_call (now : nat) (db : gmap string WorkflowRun) (c : Call)
  : gmap string WorkflowRun :=
  match c with
  | CreateRun thread task_name (Ok rid) => create rid thread task_name now db
  | UpdateStatus rid new_status res (Ok _) => update_status rid new_status res now db
  | _ => db
  end.

(** The status change, if any, that one call makes to an existing record:
    the record's id, its status before and its status after. *)
Definition status_change (db : gmap string WorkflowRun) (c : Call)
  : list (string * (string * string)) :=
  match c with
  | CreateRun _ _ (Ok rid) =>
      match db !! rid with
      | Some r => [(rid, (status r, "running"))]
      | None => []
      end
  | UpdateStatus rid new_status _ (Ok _) =>
      match db !! rid with
      | Some r => [(rid, (status r, new_status))]
      | None => []
      end
  | _ => []
  end.

Fixpoint replay (now : nat) (db : gmap string WorkflowRun) (cs : list Call)
  : gmap string WorkflowRun :=
  match cs with
  | [] => db
  | c :: cs' => replay (S now) (apply_call now db c) cs'
  end.

Fixpoint transitions (now : nat) (db : gmap string WorkflowRun) (cs : list Call)
  : list (string * (string * string)) :=
  match cs with
  | [] => []
  | c :: cs' => status_change db c ++ transitions (S now) (apply_call now db c) cs'
  end.

(** The table after the calls [h], starting from no records. *)
Definition table_after (h : list Call) : gmap string WorkflowRun := replay 0 ∅ h.

(** The spec's lifecycle: running to completed, or running to failed. *)
Definition valid_transition (before after : string) : Prop :=
  before = "running" /\ (after = "completed" \/ after = "failed").

End Ledger.

Definition is_create (c : Call) : bool :=
  match c with CreateRun _ _ _ => true | _ => false end.
Definition is_update (c : Call) : bool :=
  match c with UpdateStatus _ _ _ _ => true | _ => false end.

(** ** Sample collaborators *)

Definition agent_reply : Any :=
  PyDict [("messages", PyList [PyText "2 emails labelled, 1 reply sent"])].

(** Everything works; the table hands out one id. *)
Definition ext_ok : Externals :=
  mkExternals (fun _ _ => Ok agent_reply)
              (fun _ _ _ => Ok "run-1")
              (fun _ _ _ _ => Ok tt).

(** The agent raises. *)
Definition ext_agent_down : Externals :=
  mkExternals (fun _ _ => Raise (Exception "RuntimeError('model unavailable')"))
              (fun _ _ _ => Ok "run-1")
              (fun _ _ _ _ => Ok tt).

(** The status update raises. *)
Definition ext_update_down : Externals :=
  mkExternals (fun _ _ => Ok agent_reply)
              (fun _ _ _ => Ok "run-1")
              (fun _ _ _ _ => Raise (Exception "OperationalError('connection refused')")).

(** Creating the run raises. *)
Definition ext_create_down : Externals :=
  mkExternals (fun _ _ => Ok agent_reply)
              (fun _ _ _ => Raise (Exception "OperationalError('connection refused')"))
              (fun _ _ _ _ => Ok tt).

Definition empty_state : AgentState := mkState None None None None None None.

(** The state [run_once] of [src/app/main.py] starts from. *)
Definition initial_state (user_input : string) : AgentState :=
  mkState (Some (Some user_input)) None None None None None.

(** ** The branch nodes, side by side *)

(** The two branch nodes: the name each is registered under in the graph,
    the name it logs under, and its message template. *)
Inductive BranchNode (ext : Externals)
  : string -> string -> (string -> string) -> M AgentState -> Prop :=
  | branch_process_inbox :
      BranchNode ext "process_inbox" "process_inbox_node" process_inbox_message
                 (process_inbox_node ext)
  | branch_daily_summary :
      BranchNode ext "daily_summary" "daily_summary_node" daily_summary_message
                 (daily_summary_node ext).

(** What a branch node called [name] does from state [s] after the calls
    [h], written out by cases on what the collaborators answer.  Both
    nodes are proved equal to it ([branch_node_run]). *)
Definition branch_run (ext : Externals) (name : string) (message : string -> string)
    (s : AgentState) (h : list Call) : Outcome AgentState * Store :=
  let s1 := with_log (log_of s ++ [name +:+ ": invoking gmail_agent"]) s in
  let content := message (PyStr.or_empty (dict_get (raw_input s))) in
  match gmail_agent_invoke ext h content with
  | Raise e => (Raise e, mkStore s1 (h ++ [AgentInvoke content (Raise e)]))
  | Ok res =>
      let h1 := h ++ [AgentInvoke content (Ok res)] in
      let s2 := with_log (log_of s1 ++ [name +:+ ": gmail_agent finished"])
                         (with_result res s1) in
      if PyStr.truthy (dict_get (run_id s)) then
        let rid := default "" (dict_get (run_id s)) in
        let r := update_workflow_status ext h1 rid "completed" res in
        let line :=
          match r with
          | Ok _ => name +:+ ": workflow_run " +:+ rid +:+ " marked as completed"
          | Raise e => name +:+ ": failed to update workflow status: " +:+ repr_of e
          end in
        let s3 := with_log (log_of s2 ++ [line]) s2 in
        (Ok s3, mkStore s3 (h1 ++ [UpdateStatus rid "completed" res r]))
      else (Ok s2, mkStore s2 h1)
  end.

(** The state machine of the spec, under the names the graph registers:
    entry, classify ([task_router]), the two branches and the terminal
    marker. *)
Definition spec_transitions : list (string * string) :=
  [("entry", "task_router");
   ("task_router", "process_inbox");
   ("task_router", "daily_summary");
   ("process_inbox", END);
   ("daily_summary", END)].

Fixpoint count_calls (p : Call -> bool) (cs : list Call) : nat :=
  match cs with
  | [] => 0
  | c :: cs' => (if p c then 1 else 0) + count_calls p cs'
  end.

(** A node only appends to the log: the log it was given is a prefix of the
    log it leaves in the dictionary, whether it returns or raises, and of
    the log of the state it returns. *)
Definition appends_only (node : M AgentState) : Prop :=
  forall (s : AgentState) (h : list Call),
    log_of s `prefix_of` log_of (st (snd (node (mkStore s h))))
    /\ (forall s' σ', node (mkStore s h) = (Ok s', σ') -> log_of s `prefix_of` log_of s').

(** ** The classification rule in the spec's words *)

(** Two strings are equal up to letter case. *)
Definition eq_ignore_case (a b : string) : Prop := PyStr.lower a = PyStr.lower b.

(** [text] contains the token [kw], case-insensitively, at any position:
    some stretch [mid] of [text] equals [kw] up to case. *)
Definition has_token (kw text : string) : Prop :=
  exists pre mid suf, text = pre +:+ mid +:+ suf /\ eq_ignore_case mid kw.

(** The same for the [raw_input] field: an absent key and [None] contain
    nothing. *)
Definition raw_input_has_token (kw : string) (s : AgentState) : Prop :=
  exists text, raw_input s = Some (Some text) /\ has_token kw text.

(** ** The entry and classification nodes, written out *)

(** The state the entry node returns when the run table answered [rid]. *)
Definition after_entry (rid : string) (s : AgentState) : AgentState :=
  let s2 := with_log (log_of s ++ ["entry_node: starting";
                        "entry_node: created workflow_run run_id=" +:+ rid])
                     (with_run_id (Some rid) s) in
  if PyStr.truthy (dict_get (raw_input s)) then s2
  else with_raw_input (Some "Process my inbox.") s2.

(** The task the classification node writes. *)
Definition classify (s : AgentState) : string :=
  let text := PyStr.lower (PyStr.or_empty (dict_get (raw_input s))) in
  if PyStr.contains "summary" text || PyStr.contains "daily" text
  then "daily_summary" else "process_inbox".

(** The state the classification node returns. *)
Definition after_router (s : AgentState) : AgentState :=
  with_log (log_of s ++ ["task_router_node: task set to '" +:+ classify s +:+ "'"])
           (with_task (classify s) s).

(** The instruction a run works on: the caller's [raw_input] when it is a
    non-empty string, the default otherwise. *)
Definition effective_instruction (s : AgentState) : string :=
  if PyStr.truthy (dict_get (raw_input s))
  then PyStr.or_empty (dict_get (raw_input s))
  else "Process my inbox.".

Definition is_agent_call (c : Call) : bool :=
  match c with AgentInvoke _ _ => true | _ => false end.

(** ** The entry point ([src/app/main.py]) *)

Module Main.

(** [run_once(user_input)]: create the tables, build the graph, invoke it on
    [{"raw_input": user_input}] and print the result and the log.  [init_db]
    is what creating the tables answers; [str_of] is Python's [str] on the
    agent's output; the printed lines are the arguments of the [print]
    calls, in order.  An exception leaves [run_once] before anything is
    printed.  Building the graph itself (the Redis client and the
    checkpointer) is taken to go through; the thread id of the invocation
    is not read by any node. *)
Definition run_once (ext : Externals) (init_db : Outcome unit)
    (str_of : Any -> string) (fuel : nat) (user_input : string) (h : list Call)
  : RunStatus * list string * list Call :=
  match init_db with
  | Raise e => (Faulted e, [], h)
  | Ok _ =>
      let app := build_app ext in
      let initial_state := mkState (Some (Some user_input)) None None None None None in
      let run := invoke fuel app initial_state h in
      match run_status run with
      | Finished =>
          let result_state := st (final run) in
          let shown := match result result_state with
                       | Some v => str_of v
                       | None => "None"
                       end in
          let log := default [] (log result_state) in
          (Finished,
           [newline +:+ "=== FINAL RESULT ==="; shown;
            newline +:+ "=== WORKFLOW LOG ==="]
           ++ map (fun line => "- " +:+ line) log,
           calls (final run))
      | other => (other, [], calls (final run))
      end
  end.

End Main.

(** ** The Gmail tools ([src/tools/gmail_tools.py]) *)

Module Gmail.

(** A header or a label as the API returns it: a JSON object with string
    values, read with [dict.get]. *)
Abbreviation Obj := (gmap string string).

(** [_extract_header]: the value of the first header whose name equals
    [name] up to letter case; a header without a "name" counts as named "". *)
Fixpoint _extract_header (headers : list Obj) (name : string) : option string :=
  match headers with
  | [] => None
  | h :: rest =>
      if String.eqb (PyStr.lower (default "" (h !! "name"))) (PyStr.lower name)
      then h !! "value"
      else _extract_header rest name
  end.

(** The [body] object of a message part. *)
Record MessagePartBody : Type := mkBody {
  attachmentId : option string;
  size : option Z;
  data : option string
}.

(** A message payload or one of its parts; every key may be missing. *)
Inductive MessagePart : Type := mkPart {
  mimeType : option string;
  headers : option (list Obj);
  body : option MessagePartBody;
  parts : option (list MessagePart)
}.

(** [payload.get("body", {}).get("data")] *)
Definition body_data (payload : MessagePart) : option string :=
  match body payload with
  | Some b => data b
  | None => None
  end.

(** The empty object [{}] read as a payload. *)
Definition no_payload : MessagePart := mkPart None None None None.

(** What [users.messages.get/send/modify] return, as far as the tools read
    it. *)
Record Message : Type := mkMessage {
  id : option string;
  threadId : option string;
  snippet : option string;
  labelIds : option (list string);
  payload : option MessagePart
}.

(** One entry of the list [fetch_unread_emails] returns. *)
Record Email : Type := mkEmail {
  email_id : string;
  email_thread_id : option string;
  email_subject : string;
  email_sender : string;
  email_snippet : string;
  email_body : string
}.

(** The body of [labels.create], of [messages.send] and of
    [messages.modify]. *)
Record LabelBody : Type := mkLabelBody {
  label_name : string;
  labelListVisibility : string;
  messageListVisibility : string
}.

Record SendBody : Type := mkSendBody {
  raw : string;
  send_threadId : option string
}.

Record ModifyBody : Type := mkModifyBody {
  addLabelIds : list string;
  removeLabelIds : list string
}.

(** A [MIMEText] message: its text and the headers set on it, in order. *)
Record MimeText : Type := mkMimeText {
  mime_text : string;
  mime_headers : list (string * option string)
}.

(** OAuth credentials, as far as [_get_gmail_service] looks at them. *)
Record Credentials : Type := mkCredentials {
  valid : bool;
  expired : bool;
  refresh_token : option string;
  to_json : string
}.

(** What [Credentials.from_authorized_user_file] does with the token file:
    credentials, a [ValueError] (which the caller catches), or another
    exception. *)
Inductive LoadResult : Type :=
  | Loaded (creds : Credentials)
  | LoadValueError
  | LoadRaises (e : PyException).

(** What [with open(TOKEN_FILE, "w") as token: token.write(...)] comes to:
    the file written; the file not opened, and so left as it was; or the
    file opened, which truncates it, and the write broken off with only
    [partial] in it. *)
Inductive WriteResult : Type :=
  | Written
  | NotOpened (e : PyException)
  | BrokenOff (e : PyException) (partial : string).

(** One interaction with the outside, with what came back. *)
Inductive Event : Type :=
  | Refresh (creds : Credentials) (r : Outcome Credentials)
  | OAuthFlow (r : Outcome Credentials)
  | WriteToken (path content : string) (r : WriteResult)
  | Build (creds : Credentials) (r : Outcome unit)
  | LabelsList (userId : string) (r : Outcome (option (list Obj)))
  | LabelsCreate (userId : string) (lbody : LabelBody) (r : Outcome Obj)
  | MessagesList (userId : string) (label_ids : list string) (q : string)
                 (maxResults : Z) (r : Outcome (option (list Obj)))
  | MessagesGet (userId msg_id format : string) (metadataHeaders : option (list string))
                (r : Outcome Message)
  | MessagesSend (userId : string) (sbody : SendBody) (r : Outcome Message)
  | MessagesModify (userId msg_id : string) (mbody : ModifyBody) (r : Outcome Message).

(** The libraries and services the tools call.  The two file names are the
    module constants [TOKEN_FILE] and [CREDENTIALS_FILE], read from the
    environment when the module is imported.  The files that exist are a map
    from path to content.  Services answer as a function of the events so
    far.
    - [refresh]: [creds.refresh(Request())], answering the credentials as
      they are afterwards;
    - [run_local_server]: [InstalledAppFlow.from_client_secrets_file] on the
      credentials file followed by [flow.run_local_server(port=0)];
    - [build]: [build("gmail", "v1", credentials=creds)];
    - [b64_text]: [base64.urlsafe_b64decode(data.encode("utf-8"))] followed
      by [.decode("utf-8", errors="ignore")];
    - [mime_b64]: [base64.urlsafe_b64encode(message.as_bytes()).decode("utf-8")];
    - [str_labels]: [str] of [updated.get('labelIds')];
    - [repr_str]: [repr] of a string. *)
Record World : Type := mkWorld {
  TOKEN_FILE : string;
  CREDENTIALS_FILE : string;
  from_authorized_user_file : string -> string -> LoadResult;
  refresh : list Event -> Credentials -> Outcome Credentials;
  run_local_server : list Event -> string -> string -> Outcome Credentials;
  write_token : list Event -> string -> string -> WriteResult;
  build : list Event -> Credentials -> Outcome unit;
  labels_list : list Event -> string -> Outcome (option (list Obj));
  labels_create : list Event -> string -> LabelBody -> Outcome Obj;
  messages_list : list Event -> string -> list string -> string -> Z
                  -> Outcome (option (list Obj));
  messages_get : list Event -> string -> string -> string -> option (list string)
                 -> Outcome Message;
  messages_send : list Event -> string -> SendBody -> Outcome Message;
  messages_modify : list Event -> string -> string -> ModifyBody -> Outcome Message;
  b64_text : string -> Outcome string;
  mime_b64 : MimeText -> Outcome string;
  str_labels : option (list string) -> string;
  repr_str : string -> string
}.

(** The state a tool runs in: the files and the events so far. *)
Record State : Type := mkGState {
  files : gmap string string;
  events : list Event
}.

Definition G (A : Type) : Type := State -> Outcome A * State.

#[global] Instance G_ret : MRet G := fun A (a : A) (σ : State) => (Ok a, σ).

#[global] Instance G_bind : MBind G := fun A B (k : A -> G B) (m : G A) (σ : State) =>
  match m σ with
  | (Ok a, σ') => k a σ'
  | (Raise e, σ') => (Raise e, σ')
  end.

Definition raise {A} (e : PyException) : G A := fun σ => (Raise e, σ).

(** A library function that does not touch the outside. *)
Definition lift {A} (r : Outcome A) : G A := fun σ => (r, σ).

(** A service call: ask, and record the event. *)
Definition call {A} (ask : list Event -> Outcome A) (record : Outcome A -> Event)
  : G A :=
  fun σ =>
    let r := ask (events σ) in
    (r, mkGState (files σ) (events σ ++ [record r])).

(** [os.path.exists(path)] *)
Definition path_exists (path : string) : G bool :=
  fun σ => (Ok (bool_decide (is_Some (files σ !! path))), σ).

(** [obj[key]]: a missing key raises [KeyError]. *)
Definition subscript (obj : Obj) (key : string) : G string :=
  match obj !! key with
  | Some v => mret v
  | None => raise (Exception ("KeyError('" +:+ key +:+ "')"))
  end.

(** An f-string field holding an optional string: [None] prints as "None". *)
Definition fstr (v : option string) : string := default "None" v.

Section Tools.

Variable w : World.

(** [_decode_body], the loop over [payload["parts"]]: the first part of
    type text/plain with data is decoded and the loop is left. *)
Fixpoint decode_parts (ps : list MessagePart) : Outcome string :=
  match ps with
  | [] => Ok ""
  | part :: rest =>
      let mime_type := default "" (mimeType part) in
      if String.eqb mime_type "text/plain" then
        let data := body_data part in
        if PyStr.truthy data then b64_text w (default "" data)
        else decode_parts rest
      else decode_parts rest
  end.

Definition _decode_body (payload : MessagePart) : Outcome string :=
  match parts payload with
  | Some ps => (* Multi-part message: look for text/plain part *)
      decode_parts ps
  | None => (* Single-part message *)
      let data := body_data payload in
      if PyStr.truthy data then b64_text w (default "" data) else Ok ""
  end.

(** [_get_gmail_service], step 1: try to load the existing token file; a
    [ValueError] while loading leaves no credentials. *)
Definition load_token : G (option Credentials) :=
  has_token ← path_exists (TOKEN_FILE w) ;
  if has_token : bool then
    (fun σ =>
       match from_authorized_user_file w (TOKEN_FILE w)
               (default "" (files σ !! TOKEN_FILE w)) with
       | Loaded c => (Ok (Some c), σ)
       | LoadValueError => (Ok None, σ)
       | LoadRaises e => (Raise e, σ)
       end) : G (option Credentials)
  else mret None.

Definition credentials_missing : PyException :=
  Exception
    ("RuntimeError("
     +:+ repr_str w
           ("Gmail credentials file '" +:+ CREDENTIALS_FILE w
            +:+ "' not found or invalid." +:+ newline
            +:+ "Download OAuth client credentials from Google Cloud Console as "
            +:+ "'credentials.json' or set GMAIL_CREDENTIALS_FILE env var.")
     +:+ ")").

(** Step 2, the [else] branch: the OAuth flow from the credentials file,
    which must exist. *)
Definition oauth_flow : G Credentials :=
  has_secrets ← path_exists (CREDENTIALS_FILE w) ;
  if negb has_secrets then raise credentials_missing
  else
    (fun σ =>
       call (fun evs => run_local_server w evs (CREDENTIALS_FILE w)
                          (default "" (files σ !! CREDENTIALS_FILE w)))
            OAuthFlow σ) : G Credentials.

(** [creds and creds.expired and creds.refresh_token] *)
Definition can_refresh (creds : option Credentials) : bool :=
  match creds with
  | Some c => expired c && PyStr.truthy (refresh_token c)
  | None => false
  end.

(** Step 3: write [creds.to_json()] to the token file. *)
Definition save_token (creds : Credentials) : G unit :=
  fun σ =>
    let r := write_token w (events σ) (TOKEN_FILE w) (to_json creds) in
    let evs := events σ ++ [WriteToken (TOKEN_FILE w) (to_json creds) r] in
    match r with
    | Written => (Ok tt, mkGState (<[TOKEN_FILE w := to_json creds]> (files σ)) evs)
    | NotOpened e => (Raise e, mkGState (files σ) evs)
    | BrokenOff e partial =>
        (Raise e, mkGState (<[TOKEN_FILE w := partial]> (files σ)) evs)
    end.

(** Step 2 and 3: refresh the credentials or run the OAuth flow, then save
    the new token. *)
Definition renew (creds : option Credentials) : G Credentials :=
  creds' ← (match creds with
            | Some c =>
                if can_refresh creds
                then call (fun evs => refresh w evs c) (Refresh c)
                else oauth_flow
            | None => oauth_flow
            end) ;
  save_token creds' ;;
  mret creds'.

(** [_get_gmail_service]; the answer is the credentials the client was
    built with. *)
Definition _get_gmail_service : G Credentials :=
  creds ← load_token ;
  creds ← (match creds with         (* if not creds or not creds.valid *)
           | Some c => if negb (valid c) then renew creds else mret c
           | None => renew creds
           end) ;
  call (fun evs => build w evs creds) (Build creds) ;;
  mret creds.

(** [_ensure_label], the loop over the labels: the first label of that
    name ends the search, and its "id" is subscripted. *)
Fixpoint find_label (labels : list Obj) (label_name : string) : option Obj :=
  match labels with
  | [] => None
  | label :: rest =>
      if decide (label !! "name" = Some label_name) then Some label
      else find_label rest label_name
  end.

Definition _ensure_label (user_id label_name : string) : G string :=
  labels_resp ← call (fun evs => labels_list w evs user_id) (LabelsList user_id) ;
  let labels := default [] labels_resp in
  match find_label labels label_name with
  | Some label => subscript label "id"
  | None =>
      (* Label not found, create it *)
      let label_body := mkLabelBody label_name "labelShow" "show" in
      created ← call (fun evs => labels_create w evs user_id label_body)
                     (LabelsCreate user_id label_body) ;
      subscript created "id"
  end.

(** [fetch_unread_emails], the loop over the listed messages. *)
Fixpoint fetch_each (user_id : string) (messages : list Obj) (emails : list Email)
  : G (list Email) :=
  match messages with
  | [] => mret emails
  | msg_meta :: rest =>
      msg_id ← subscript msg_meta "id" ;
      msg ← call (fun evs => messages_get w evs user_id msg_id "full" None)
                 (MessagesGet user_id msg_id "full" None) ;
      let payload := default no_payload (payload msg) in
      let headers := default [] (headers payload) in
      let subject := PyStr.or_empty (_extract_header headers "Subject") in
      let sender := PyStr.or_empty (_extract_header headers "From") in
      let snippet := default "" (snippet msg) in
      body ← lift (_decode_body payload) ;
      fetch_each user_id rest
        (emails ++ [mkEmail msg_id (threadId msg) subject sender snippet body])
  end.

(** [fetch_unread_emails(limit)]; the answer is the list under the key
    "emails" of the dictionary returned. *)
Definition fetch_unread_emails (limit : Z) : G (list Email) :=
  service ← _get_gmail_service ;
  let user_id := "me" in
  response ← call (fun evs => messages_list w evs user_id ["INBOX"] "is:unread" limit)
                  (MessagesList user_id ["INBOX"] "is:unread" limit) ;
  let messages := default [] response in
  fetch_each user_id messages [].

Definition send_reply (email_id reply_text : string) : G string :=
  service ← _get_gmail_service ;
  let user_id := "me" in
  original ← call (fun evs => messages_get w evs user_id email_id "metadata"
                                (Some ["Subject"; "From"; "To"]))
                  (MessagesGet user_id email_id "metadata"
                               (Some ["Subject"; "From"; "To"])) ;
  let headers := default [] (headers (default no_payload (payload original))) in
  let subject := PyStr.or_empty (_extract_header headers "Subject") in
  let from_header := PyStr.or_empty (_extract_header headers "From") in
  let to_addr := from_header in
  let subject :=
    if negb (String.prefix "re:" (PyStr.lower subject))
    then "Re: " +:+ subject
    else subject in
  let message := mkMimeText reply_text
                   [("To", Some to_addr);
                    ("Subject", Some subject);
                    ("In-Reply-To", id original);
                    ("References", id original)] in
  encoded_message ← lift (mime_b64 w message) ;
  let send_body := mkSendBody encoded_message (threadId original) in
  sent ← call (fun evs => messages_send w evs user_id send_body)
              (MessagesSend user_id send_body) ;
  mret ("Reply sent. New message id=" +:+ fstr (id sent)
        +:+ " in thread " +:+ fstr (threadId sent)).

Definition apply_label (email_id label : string) : G string :=
  service ← _get_gmail_service ;
  let user_id := "me" in
  label_id ← _ensure_label user_id label ;
  let body := mkModifyBody [label_id] [] in
  updated ← call (fun evs => messages_modify w evs user_id email_id body)
                 (MessagesModify user_id email_id body) ;
  mret ("Label '" +:+ label +:+ "' applied to email_id=" +:+ email_id
        +:+ ", new labelIds=" +:+ str_labels w (labelIds updated)).

End Tools.

(** A computation adds events to the history, and [Q] holds of what it
    adds, whether it returns or raises. *)
Definition emits {A} (Q : list Event -> Prop) (m : G A) : Prop :=
  forall σ, exists new, events (snd (m σ)) = events σ ++ new /\ Q new.

(** The events of authentication: they do not touch the mailbox. *)
Definition is_auth (ev : Event) : bool :=
  match ev with
  | Refresh _ _ | OAuthFlow _ | WriteToken _ _ _ | Build _ _ => true
  | _ => false
  end.

(** Events that only read the mailbox. *)
Definition is_read (ev : Event) : bool :=
  match ev with
  | LabelsList _ _ | MessagesList _ _ _ _ _ | MessagesGet _ _ _ _ _ => true
  | _ => false
  end.

Definition is_send (ev : Event) : bool :=
  match ev with MessagesSend _ _ _ => true | _ => false end.

Definition is_modify (ev : Event) : bool :=
  match ev with MessagesModify _ _ _ _ => true | _ => false end.

Definition is_label_create (ev : Event) : bool :=
  match ev with LabelsCreate _ _ _ => true | _ => false end.

Fixpoint count_events (p : Event -> bool) (evs : list Event) : nat :=
  match evs with
  | [] => 0
  | ev :: rest => (if p ev then 1 else 0) + count_events p rest
  end.

(** What a computation adds satisfies [P] event by event and holds at most
    [n] events of kind [p]. *)
Definition within (P : Event -> Prop) (p : Event -> bool) (n : nat)
    (new : list Event) : Prop :=
  Forall P new /\ count_events p new <= n.

Definition is_renewal (ev : Event) : bool :=
  match ev with Refresh _ _ | OAuthFlow _ => true | _ => false end.

Definition is_get (ev : Event) : bool :=
  match ev with MessagesGet _ _ _ _ _ => true | _ => false end.

(** The header [h] is named [name], up to letter case. *)
Definition named (name : string) (h : Obj) : Prop :=
  eq_ignore_case (default "" (h !! "name")) name.

(** A part [_decode_body] would decode: of type text/plain, with data. *)
Definition plain_with_data (part : MessagePart) : Prop :=
  mimeType part = Some "text/plain" /\ PyStr.truthy (body_data part) = true.

(** What [apply_label email_id label] may do: authenticate, list the
    labels, create the label [label], and modify the message [email_id] by
    adding one label and removing none. *)
Definition label_only (email_id label : string) (ev : Event) : Prop :=
  match ev with
  | Refresh _ _ | OAuthFlow _ | WriteToken _ _ _ | Build _ _ => True
  | LabelsList userId _ => userId = "me"
  | LabelsCreate userId lbody _ => userId = "me" /\ label_name lbody = label
  | MessagesModify userId msg_id mbody _ =>
      userId = "me" /\ msg_id = email_id
      /\ removeLabelIds mbody = [] /\ exists i, addLabelIds mbody = [i]
  | MessagesList _ _ _ _ _ | MessagesGet _ _ _ _ _ | MessagesSend _ _ _ => False
  end.

(** What [send_reply email_id _] may do: authenticate, read the metadata of
    the message [email_id], and send a message. *)
Definition reply_only (email_id : string) (ev : Event) : Prop :=
  match ev with
  | Refresh _ _ | OAuthFlow _ | WriteToken _ _ _ | Build _ _ => True
  | MessagesGet userId msg_id format _ _ =>
      userId = "me" /\ msg_id = email_id /\ format = "metadata"
  | MessagesSend userId _ _ => userId = "me"
  | LabelsList _ _ | LabelsCreate _ _ _ | MessagesList _ _ _ _ _
  | MessagesModify _ _ _ _ => False
  end.

(** The entry [e] describes the message [msg]: thread, snippet, the
    "Subject" and "From" headers (empty when missing) and the decoded body. *)
Definition describes (w : World) (msg : Message) (e : Email) : Prop :=
  let payload := default no_payload (payload msg) in
  let headers := default [] (headers payload) in
  email_thread_id e = threadId msg
  /\ email_snippet e = default "" (snippet msg)
  /\ email_subject e = PyStr.or_empty (_extract_header headers "Subject")
  /\ email_sender e = PyStr.or_empty (_extract_header headers "From")
  /\ _decode_body w payload = Ok (email_body e).

(** *** A sample mailbox *)

Definition header (name value : string) : Obj :=
  {[ "name" := name; "value" := value ]}.

Definition sample_creds : Credentials := mkCredentials true false (Some "r-tok") "{json}".

Definition sample_message (msg_id : string) : Message :=
  mkMessage (Some msg_id) (Some ("t-" +:+ msg_id)) (Some "Hello")
    (Some ["INBOX"; "UNREAD"])
    (Some (mkPart (Some "multipart/alternative")
             (Some [header "From" "ann@example.org"; header "SUBJECT" "Invoice 7";
                    header "Subject" "shadowed"])
             (Some (mkBody None (Some 0%Z) None))
             (Some [mkPart (Some "text/html") None
                      (Some (mkBody None (Some 9%Z) (Some "PGI+aGk8L2I+"))) None;
                    mkPart (Some "text/plain") None
                      (Some (mkBody None (Some 2%Z) (Some "aGk="))) None]))).

(** A mailbox with two unread messages and one label; the stored token is
    valid; the decoders are stand-ins that mark what they were given. *)
Definition sample_world : World :=
  mkWorld "token.json" "credentials.json"
    (fun _ _ => Loaded sample_creds)
    (fun _ c => Ok c)
    (fun _ _ _ => Ok sample_creds)
    (fun _ _ _ => Written)
    (fun _ _ => Ok tt)
    (fun _ _ => Ok (Some [{[ "id" := "Label_1"; "name" := "Billing" ]}]))
    (fun _ _ b => Ok {[ "id" := "Label_2"; "name" := label_name b ]})
    (fun _ _ _ _ _ => Ok (Some [{[ "id" := "m1" ]}; {[ "id" := "m2" ]}]))
    (fun _ _ msg_id _ _ => Ok (sample_message msg_id))
    (fun _ _ _ => Ok (mkMessage (Some "m9") (Some "t-m1") None None None))
    (fun _ _ msg_id _ =>
       Ok (mkMessage (Some msg_id) None None (Some ["INBOX"; "Label_1"]) None))
    (fun d => Ok ("decoded:" +:+ d))
    (fun m => Ok ("mime:" +:+ mime_text m))
    (fun _ => "[labels]")
    (fun t => "'" +:+ t +:+ "'").

Definition sample_state : State :=
  mkGState {[ "token.json" := "{json}" ]} [].

End Gmail.

(** * Properties *)

(** ** Strings *)

Lemma append_nil (b : string) : "" +:+ b = b.
Proof. reflexivity. Qed.

Lemma append_cons (x : ascii) (a b : string) :
  String x a +:+ b = String x (a +:+ b).
Proof. reflexivity. Qed.

Ltac unfold_append := rewrite ?append_cons, ?append_nil.
Ltac unfold_append_in H := rewrite ?append_cons, ?append_nil in H.

Lemma prefix_nil (s : string) : String.prefix "" s = true.
Proof. by destruct s. Qed.

Lemma prefix_cons (x y : ascii) (a b : string) :
  String.prefix (String x a) (String y b)
  = if Ascii.ascii_dec x y then String.prefix a b else false.
Proof. reflexivity. Qed.

Lemma prefix_split (sub s : string) :
  String.prefix sub s = true <-> exists suf, s = sub +:+ suf.
Proof.
  revert s. induction sub as [|x sub IH]; intros s.
  - rewrite prefix_nil. split; [intros _; by exists s | done].
  - destruct s as [|y s].
    + split; [done | intros [suf H]; discriminate H].
    + rewrite prefix_cons. destruct (Ascii.ascii_dec x y) as [->|Hne].
      * rewrite IH. split; intros [suf H]; exists suf.
        -- unfold_append. by rewrite H.
        -- unfold_append_in H. by injection H.
      * split; [done | intros [suf H]; unfold_append_in H; injection H; intros; congruence].
Qed.

Lemma contains_nil (sub : string) :
  PyStr.contains sub "" = String.prefix sub "" || false.
Proof. reflexivity. Qed.

Lemma contains_cons (sub : string) (y : ascii) (s : string) :
  PyStr.contains sub (String y s)
  = String.prefix sub (String y s) || PyStr.contains sub s.
Proof. reflexivity. Qed.

Lemma contains_split (sub s : string) :
  PyStr.contains sub s = true <-> exists pre suf, s = pre +:+ sub +:+ suf.
Proof.
  induction s as [|y s IH].
  - rewrite contains_nil, orb_false_r, prefix_split. split.
    + intros [suf H]. by exists EmptyString, suf.
    + intros [pre [suf H]]. destruct pre; [by exists suf | discriminate H].
  - rewrite contains_cons, orb_true_iff, prefix_split, IH. split.
    + intros [[suf H] | [pre [suf H]]].
      * by exists EmptyString, suf.
      * exists (String y pre), suf. unfold_append. by rewrite H.
    + intros [pre [suf H]]. destruct pre as [|x pre]; unfold_append_in H.
      * left. by exists suf.
      * right. exists pre, suf. by injection H.
Qed.

Lemma lower_append (a b : string) :
  PyStr.lower (a +:+ b) = PyStr.lower a +:+ PyStr.lower b.
Proof.
  induction a as [|x a IH]; unfold_append; simpl; unfold_append; [done | by rewrite IH].
Qed.

Lemma lower_unappend (s a b : string) :
  PyStr.lower s = a +:+ b ->
  exists s1 s2, s = s1 +:+ s2 /\ PyStr.lower s1 = a /\ PyStr.lower s2 = b.
Proof.
  revert s. induction a as [|x a IH]; intros s H; unfold_append_in H.
  - by exists EmptyString, s.
  - destruct s as [|y s]; [discriminate H|]. simpl in H.
    injection H as Hx Hs. destruct (IH s Hs) as (s1 & s2 & -> & H1 & H2).
    exists (String y s1), s2. simpl. by rewrite Hx, H1.
Qed.

(** A lower-case keyword occurs in [lower text] exactly when [text] has it
    as a token up to case. *)
Lemma contains_lower_has_token (kw text : string) :
  PyStr.lower kw = kw ->
  PyStr.contains kw (PyStr.lower text) = true <-> has_token kw text.
Proof.
  intros Hkw. rewrite contains_split. unfold has_token, eq_ignore_case. split.
  - intros (pre & suf & H).
    apply lower_unappend in H as (s1 & s23 & -> & H1 & H23).
    apply lower_unappend in H23 as (s2 & s3 & -> & H2 & H3).
    exists s1, s2, s3. by rewrite Hkw.
  - intros (pre & mid & suf & -> & Hmid).
    exists (PyStr.lower pre), (PyStr.lower suf).
    by rewrite !lower_append, Hmid, Hkw.
Qed.

Lemma or_empty_id (v : option string) :
  PyStr.or_empty v = default "" v.
Proof.
  destruct v as [t|]; simpl; [|done].
  destruct (String.eqb_spec t ""); by subst.
Qed.

Lemma has_token_nonempty (kw : string) :
  kw <> "" -> ~ has_token kw "".
Proof.
  intros Hkw (pre & mid & suf & H & Heq). unfold eq_ignore_case in Heq.
  destruct pre; [|discriminate H]. destruct mid; [|discriminate H].
  destruct kw; [done | discriminate Heq].
Qed.

(** ** What each node computes *)

Lemma log_of_with_log (l : list string) (s : AgentState) :
  log_of (with_log l s) = l.
Proof. reflexivity. Qed.

Ltac step_node :=
  unfold mbind, M_bind, mret, M_ret, read_state, modify_state, setdefault_log,
    log_append, try_except, call_gmail_agent, call_create_workflow_run,
    call_update_workflow_status, log_of, with_log, with_task, with_run_id,
    with_result, with_raw_input; simpl.

Lemma task_router_node_run (s : AgentState) (h : list Call) :
  let text := PyStr.lower (PyStr.or_empty (dict_get (raw_input s))) in
  let t := if PyStr.contains "summary" text || PyStr.contains "daily" text
           then "daily_summary" else "process_inbox" in
  let s' := with_log (log_of s ++ ["task_router_node: task set to '" +:+ t +:+ "'"])
                     (with_task t s) in
  task_router_node (mkStore s h) = (Ok s', mkStore s' h).
Proof.
  destruct s as [ri tk rid em res [lg|]]; unfold task_router_node; by step_node.
Qed.

Lemma entry_node_run (ext : Externals) (s : AgentState) (h : list Call) :
  entry_node ext (mkStore s h) =
    match create_workflow_run ext h None "unknown" with
    | Raise e =>
        (Raise e,
         mkStore (with_log (log_of s ++ ["entry_node: starting"]) s)
                 (h ++ [CreateRun None "unknown" (Raise e)]))
    | Ok rid =>
        let s2 := with_log (log_of s ++ ["entry_node: starting";
                              "entry_node: created workflow_run run_id=" +:+ rid])
                           (with_run_id (Some rid) s) in
        let s3 := if PyStr.truthy (dict_get (raw_input s)) then s2
                  else with_raw_input (Some "Process my inbox.") s2 in
        (Ok s3, mkStore s3 (h ++ [CreateRun None "unknown" (Ok rid)]))
    end.
Proof.
  destruct s as [ri tk rid em res [lg|]]; unfold entry_node; step_node.
  all: destruct (create_workflow_run ext h None "unknown"); simpl; [|done].
  all: rewrite <- ?app_assoc; simpl.
  all: by destruct (PyStr.truthy (dict_get ri)).
Qed.

Lemma branch_node_run (ext : Externals) key name message node (s : AgentState)
    (h : list Call) :
  BranchNode ext key name message node ->
  node (mkStore s h) = branch_run ext name message s h.
Proof.
  intros Hn. destruct s as [ri tk rid em res [lg|]].
  all: destruct Hn; unfold process_inbox_node, daily_summary_node, branch_run;
    step_node.
  all: (destruct (gmail_agent_invoke ext h _); simpl; [|done]).
  all: (destruct (PyStr.truthy (dict_get rid)); simpl; [|done]).
  all: by destruct (update_workflow_status ext _ _ _ _).
Qed.

(** ** Classification (C1) *)

Lemma classify_keyword (kw : string) (s : AgentState) :
  PyStr.lower kw = kw -> kw <> "" ->
  PyStr.contains kw (PyStr.lower (PyStr.or_empty (dict_get (raw_input s)))) = true
  <-> raw_input_has_token kw s.
Proof.
  intros Hlow Hne. rewrite or_empty_id, contains_lower_has_token by done.
  unfold raw_input_has_token. destruct (raw_input s) as [[text|]|]; simpl.
  - split; [intros H; by exists text | by intros (t & [= ->] & H)].
  - split; [intros H; by apply has_token_nonempty in H | by intros (t & [=] & _)].
  - split; [intros H; by apply has_token_nonempty in H | by intros (t & [=] & _)].
Qed.

(** C1. The classification node sets [task] to "daily_summary" exactly when
    [raw_input] contains "summary" or "daily" up to letter case at some
    position, and to "process_inbox" otherwise; the router then selects the
    branch of that name; and the task written depends on [raw_input] alone
    (two states with the same [raw_input], whatever their other fields and
    whatever calls were made before, get the same task). *)
Theorem task_router_node_classifies :
  (forall (s : AgentState) (h : list Call),
     exists s', task_router_node (mkStore s h) = (Ok s', mkStore s' h)
       /\ (task s' = Some "daily_summary"
           <-> raw_input_has_token "summary" s \/ raw_input_has_token "daily" s)
       /\ (task s' = Some "process_inbox"
           <-> ~ (raw_input_has_token "summary" s \/ raw_input_has_token "daily" s))
       /\ Some (route_by_task s') = task s')
  /\ (forall (s1 s2 : AgentState) (h1 h2 : list Call),
        raw_input s1 = raw_input s2 ->
        task (st (snd (task_router_node (mkStore s1 h1))))
        = task (st (snd (task_router_node (mkStore s2 h2))))).
Proof.
  split.
  - intros s h. eexists. split; [apply task_router_node_run|].
    rewrite <- (classify_keyword "summary" s), <- (classify_keyword "daily" s) by done.
    rewrite <- orb_true_iff. unfold route_by_task. simpl.
    destruct (_ || _); simpl; repeat split; try done; try (by intros []).
  - intros s1 s2 h1 h2 Hraw. rewrite !task_router_node_run. simpl. by rewrite Hraw.
Qed.

Example classify_daily_upper :
  task (st (snd (task_router_node (mkStore (initial_state "Give me a DAILY report") []))))
  = Some "daily_summary".
Proof. reflexivity. Qed.

Example classify_inside_word :
  task (st (snd (task_router_node (mkStore (initial_state "Summarys, please") []))))
  = Some "daily_summary".
Proof. reflexivity. Qed.

Example classify_inbox :
  task (st (snd (task_router_node (mkStore (initial_state "Process my inbox") []))))
  = Some "process_inbox".
Proof. reflexivity. Qed.

Example classify_absent :
  task (st (snd (task_router_node (mkStore empty_state [])))) = Some "process_inbox".
Proof. reflexivity. Qed.

(** ** The router (C5) *)

Lemma route_by_task_cases (s : AgentState) :
  (task s = Some "daily_summary" /\ route_by_task s = "daily_summary")
  \/ (task s <> Some "daily_summary" /\ route_by_task s = "process_inbox").
Proof. unfold route_by_task. case_decide; [by left | by right]. Qed.

Lemma successor_task_router (ext : Externals) (s : AgentState) :
  successor (build_app ext) "task_router" s = Some (route_by_task s).
Proof.
  change (successor (build_app ext) "task_router" s)
    with (assoc (route_by_task s)
            [("process_inbox", "process_inbox"); ("daily_summary", "daily_summary")]).
  by destruct (route_by_task_cases s) as [[_ ->]|[_ ->]].
Qed.

(** C5. [route_by_task] is a total function of the [task] field alone: two
    states with the same [task] are routed alike; a state whose [task] is
    unset, or anything but "daily_summary", goes to "process_inbox", the
    default; "daily_summary" goes to "daily_summary"; and the answer always
    names a registered node, which is the successor of [task_router].  (It
    is a plain function into [string], outside the monad [M]: it neither
    changes the state nor calls out.) *)
Theorem route_by_task_total_on_task :
  (forall s1 s2 : AgentState, task s1 = task s2 -> route_by_task s1 = route_by_task s2)
  /\ (forall s : AgentState, task s = None -> route_by_task s = "process_inbox")
  /\ (forall s : AgentState,
        task s <> Some "daily_summary" -> route_by_task s = "process_inbox")
  /\ (forall s : AgentState,
        task s = Some "daily_summary" -> route_by_task s = "daily_summary")
  /\ (forall (ext : Externals) (s : AgentState),
        is_Some (assoc (route_by_task s) (nodes (build_app ext)))
        /\ successor (build_app ext) "task_router" s = Some (route_by_task s)).
Proof.
  repeat split.
  - intros s1 s2 H. unfold route_by_task. by rewrite H.
  - intros s H. destruct (route_by_task_cases s) as [[H' _]|[_ ->]]; congruence.
  - intros s H. by destruct (route_by_task_cases s) as [[H' _]|[_ ->]].
  - intros s H. by destruct (route_by_task_cases s) as [[_ ->]|[H' _]].
  - destruct (route_by_task_cases s) as [[_ ->]|[_ ->]]; eexists; reflexivity.
  - apply successor_task_router.
Qed.

Example route_unknown_task :
  route_by_task (with_task "archive" empty_state) = "process_inbox".
Proof. reflexivity. Qed.

(** ** Runs of the graph *)

Lemma drive_step (fuel : nat) (g : StateGraph) (cur : string) (σ : Store)
    (seen : list string) :
  drive (S fuel) g cur σ seen =
    if String.eqb cur END then mkRun Finished seen σ
    else
      match assoc cur (nodes g) with
      | None => mkRun Stalled seen σ
      | Some node =>
          match node σ with
          | (Raise e, σ') => mkRun (Faulted e) (seen ++ [cur]) σ'
          | (Ok s', σ') =>
              match successor g cur s' with
              | None => mkRun Stalled (seen ++ [cur]) (mkStore s' (calls σ'))
              | Some nxt => drive fuel g nxt (mkStore s' (calls σ')) (seen ++ [cur])
              end
          end
      end.
Proof. reflexivity. Qed.

(** A run from a branch node: the node, then [END]. *)
Lemma drive_branch (ext : Externals) (b : string) (node : M AgentState)
    (fuel : nat) (σ : Store) (seen : list string) :
  String.eqb b END = false ->
  assoc b (nodes (build_app ext)) = Some node ->
  (forall s, successor (build_app ext) b s = Some END) ->
  drive (S (S fuel)) (build_app ext) b σ seen =
    match node σ with
    | (Raise e, σ') => mkRun (Faulted e) (seen ++ [b]) σ'
    | (Ok s', σ') => mkRun Finished (seen ++ [b]) (mkStore s' (calls σ'))
    end.
Proof.
  intros Hb Hnode Hsucc. rewrite drive_step, Hb, Hnode.
  destruct (node σ) as [[s'|e] σ']; [|done]. by rewrite Hsucc, drive_step.
Qed.

Lemma branch_registered (ext : Externals) key name message node :
  BranchNode ext key name message node ->
  String.eqb key END = false
  /\ assoc key (nodes (build_app ext)) = Some node
  /\ (forall s, successor (build_app ext) key s = Some END)
  /\ (key = "process_inbox" \/ key = "daily_summary").
Proof. intros [|]; repeat split; first [by left | by right]. Qed.

(** The branch node the router's answer names. *)
Lemma branch_of_route (ext : Externals) (s : AgentState) :
  exists name message node,
    BranchNode ext (route_by_task s) name message node.
Proof.
  destruct (route_by_task_cases s) as [[_ ->]|[_ ->]].
  - exists "daily_summary_node", daily_summary_message, (daily_summary_node ext).
    constructor.
  - exists "process_inbox_node", process_inbox_message, (process_inbox_node ext).
    constructor.
Qed.

(** A run from a branch node, in the node's own terms. *)
Lemma drive_branch_node (ext : Externals) key name message node (fuel : nat)
    (s : AgentState) (h : list Call) (seen : list string) :
  BranchNode ext key name message node ->
  drive (2 + fuel) (build_app ext) key (mkStore s h) seen =
    match branch_run ext name message s h with
    | (Raise e, σ') => mkRun (Faulted e) (seen ++ [key]) σ'
    | (Ok s', σ') => mkRun Finished (seen ++ [key]) (mkStore s' (calls σ'))
    end.
Proof.
  intros Hn. destruct (branch_registered _ _ _ _ _ Hn) as (Hk & Hnode & Hsucc & _).
  change (2 + fuel) with (S (S fuel)).
  rewrite (drive_branch ext key node) by done.
  by rewrite (branch_node_run ext key name message node).
Qed.

(** A whole run with enough fuel: entry, classification, then on from the
    step the router names, each on the state and the history the previous
    one left. *)
Lemma invoke_run (ext : Externals) (fuel : nat) (s : AgentState) (h : list Call) :
  invoke (4 + fuel) (build_app ext) s h =
    match entry_node ext (mkStore s h) with
    | (Raise e, σ1) => mkRun (Faulted e) ["entry"] σ1
    | (Ok s1, σ1) =>
        let s2 := st (snd (task_router_node (mkStore s1 (calls σ1)))) in
        drive (2 + fuel) (build_app ext) (route_by_task s2) (mkStore s2 (calls σ1))
              ["entry"; "task_router"]
    end.
Proof.
  unfold invoke.
  change (entry_point (build_app ext)) with (Some "entry"). cbv iota beta.
  change (4 + fuel) with (S (S (2 + fuel))).
  rewrite drive_step.
  change (String.eqb "entry" END) with false.
  change (assoc "entry" (nodes (build_app ext))) with (Some (entry_node ext)).
  cbv iota beta.
  destruct (entry_node ext (mkStore s h)) as [[s1|e] σ1]; [|done].
  change (successor (build_app ext) "entry" s1) with (Some "task_router").
  cbv iota beta. rewrite drive_step.
  change (String.eqb "task_router" END) with false.
  change (assoc "task_router" (nodes (build_app ext))) with (Some task_router_node).
  cbv iota beta. rewrite task_router_node_run. cbv zeta iota beta.
  by rewrite successor_task_router.
Qed.

(** ** Executor faults (C2) *)

(** C2, as the code has it.  A branch node does not catch what the agent
    raises: the exception leaves the node, with only the node's "invoking"
    line added to the log, [result] not written and no call to the run
    table; a run that was in this node ends with the fault.  When the agent
    returns a value, an error payload included, the node stores it in
    [result] and returns. *)
Theorem branch_node_executor_fault_escapes (ext : Externals) key name message node
    (s : AgentState) (h : list Call) :
  BranchNode ext key name message node ->
  (forall e,
     gmail_agent_invoke ext h (message (PyStr.or_empty (dict_get (raw_input s))))
       = Raise e ->
     node (mkStore s h)
       = (Raise e,
          mkStore (with_log (log_of s ++ [name +:+ ": invoking gmail_agent"]) s)
                  (h ++ [AgentInvoke
                           (message (PyStr.or_empty (dict_get (raw_input s))))
                           (Raise e)]))
     /\ forall fuel seen,
          run_status (drive (2 + fuel) (build_app ext) key (mkStore s h) seen)
            = Faulted e)
  /\ (forall res,
        gmail_agent_invoke ext h (message (PyStr.or_empty (dict_get (raw_input s))))
          = Ok res ->
        exists s' σ', node (mkStore s h) = (Ok s', σ') /\ st σ' = s'
                      /\ result s' = Some res).
Proof.
  intros Hn. split.
  - intros e He. split.
    + rewrite (branch_node_run _ _ _ _ _ _ _ Hn). unfold branch_run. by rewrite He.
    + intros fuel seen. rewrite (drive_branch_node _ _ _ _ _ _ _ _ _ Hn).
      unfold branch_run. by rewrite He.
  - intros res Hres. rewrite (branch_node_run _ _ _ _ _ _ _ Hn). unfold branch_run.
    rewrite Hres. cbv zeta.
    destruct (PyStr.truthy (dict_get (run_id s))); eexists _, _; repeat split.
Qed.

Lemma branch_node_executor_fault_escapes_witness :
  BranchNode ext_agent_down "daily_summary" "daily_summary_node" daily_summary_message
             (daily_summary_node ext_agent_down)
  /\ daily_summary_node ext_agent_down (mkStore (initial_state "daily digest") [])
     = (Raise (Exception "RuntimeError('model unavailable')"),
        mkStore (with_log (log_of (initial_state "daily digest")
                           ++ ["daily_summary_node" +:+ ": invoking gmail_agent"])
                          (initial_state "daily digest"))
                ([] ++ [AgentInvoke
                          (daily_summary_message
                             (PyStr.or_empty
                                (dict_get (raw_input (initial_state "daily digest")))))
                          (Raise (Exception "RuntimeError('model unavailable')"))])).
Proof.
  split; [constructor|].
  apply (proj1 (branch_node_executor_fault_escapes ext_agent_down _ _ _ _
                  (initial_state "daily digest") [] (branch_daily_summary _))).
  reflexivity.
Defined.

(** C2, against the claim as it is written: the agent raises, and
    [process_inbox_node] raises with it instead of returning; no failure is
    recorded in [log] or [result], and the run ends with the fault. *)
Lemma executor_fault_not_caught :
  gmail_agent_invoke ext_agent_down []
      (process_inbox_message "Process my inbox")
    = Raise (Exception "RuntimeError('model unavailable')")
  /\ fst (process_inbox_node ext_agent_down
            (mkStore (initial_state "Process my inbox") []))
     = Raise (Exception "RuntimeError('model unavailable')")
  /\ log (st (snd (process_inbox_node ext_agent_down
                     (mkStore (initial_state "Process my inbox") []))))
     = Some ["process_inbox_node: invoking gmail_agent"]
  /\ result (st (snd (process_inbox_node ext_agent_down
                        (mkStore (initial_state "Process my inbox") []))))
     = None
  /\ run_status (invoke 10 (build_app ext_agent_down)
                        (initial_state "Process my inbox") [])
     = Faulted (Exception "RuntimeError('model unavailable')").
Proof. repeat split. Qed.

(** ** The run id (C4) *)

(** C4, as the code has it.  The entry node calls [create_workflow_run]
    once whatever the state holds and, when the call returns, writes the
    new id into [run_id], over any id that was there.  The classification
    node and the branch nodes leave [run_id] as it is. *)
Theorem entry_node_always_creates (ext : Externals) (s : AgentState) (h : list Call) :
  calls (snd (entry_node ext (mkStore s h)))
    = h ++ [CreateRun None "unknown" (create_workflow_run ext h None "unknown")]
  /\ (forall rid,
        create_workflow_run ext h None "unknown" = Ok rid ->
        exists s', entry_node ext (mkStore s h)
                   = (Ok s', mkStore s' (h ++ [CreateRun None "unknown" (Ok rid)]))
                   /\ run_id s' = Some (Some rid))
  /\ run_id (st (snd (task_router_node (mkStore s h)))) = run_id s
  /\ (forall key name message node,
        BranchNode ext key name message node ->
        run_id (st (snd (node (mkStore s h)))) = run_id s).
Proof.
  repeat split.
  - rewrite entry_node_run. by destruct (create_workflow_run ext h None "unknown").
  - intros rid Hrid. rewrite entry_node_run, Hrid. cbv zeta.
    eexists. split; [reflexivity|].
    by destruct (PyStr.truthy (dict_get (raw_input s))).
  - by rewrite task_router_node_run.
  - intros key name message node Hn. rewrite (branch_node_run _ _ _ _ _ _ _ Hn).
    unfold branch_run. destruct (gmail_agent_invoke ext h _); [|done]. cbv zeta.
    by destruct (PyStr.truthy (dict_get (run_id s))).
Qed.

(** C4, against the claim as it is written: a state that already carries
    the id "run-0" leaves the entry node with the new id "run-1", and the
    table was asked for a new run. *)
Lemma entry_node_overwrites_run_id :
  run_id (with_run_id (Some "run-0") (initial_state "Process my inbox"))
    = Some (Some "run-0")
  /\ fst (entry_node ext_ok
            (mkStore (with_run_id (Some "run-0") (initial_state "Process my inbox")) []))
     = Ok (mkState (Some (Some "Process my inbox")) None (Some (Some "run-1")) None None
                   (Some ["entry_node: starting";
                          "entry_node: created workflow_run run_id=run-1"]))
  /\ calls (snd (entry_node ext_ok
                   (mkStore (with_run_id (Some "run-0")
                                         (initial_state "Process my inbox")) [])))
     = [CreateRun None "unknown" (Ok "run-1")].
Proof. repeat split. Qed.

(** ** A failing status update (C7) *)

(** C7. When the agent has returned [res] and the status update raises [e],
    the branch node adds a "failed to update workflow status" line carrying
    [e] to the log and returns, with [result] holding [res]; a run that was
    in this node goes on to [END]. *)
Theorem branch_node_survives_update_fault (ext : Externals) key name message node
    (s : AgentState) (h : list Call) (rid : string) (res : Any) (e : PyException) :
  BranchNode ext key name message node ->
  dict_get (run_id s) = Some rid -> rid <> "" ->
  gmail_agent_invoke ext h (message (PyStr.or_empty (dict_get (raw_input s))))
    = Ok res ->
  update_workflow_status ext
      (h ++ [AgentInvoke (message (PyStr.or_empty (dict_get (raw_input s)))) (Ok res)])
      rid "completed" res
    = Raise e ->
  exists s',
    node (mkStore s h)
      = (Ok s',
         mkStore s'
           ((h ++ [AgentInvoke (message (PyStr.or_empty (dict_get (raw_input s))))
                               (Ok res)])
            ++ [UpdateStatus rid "completed" res (Raise e)]))
    /\ result s' = Some res
    /\ log_of s' = log_of s ++ [name +:+ ": invoking gmail_agent";
                                name +:+ ": gmail_agent finished";
                                name +:+ ": failed to update workflow status: "
                                     +:+ repr_of e]
    /\ forall fuel seen,
         run_status (drive (2 + fuel) (build_app ext) key (mkStore s h) seen) = Finished.
Proof.
  intros Hn Hrid Hne Hres Hupd.
  assert (Htruthy : PyStr.truthy (dict_get (run_id s)) = true).
  { rewrite Hrid. simpl. by destruct (String.eqb_spec rid ""). }
  assert (Hrun : branch_run ext name message s h
                 = (Ok (with_log ((log_of s ++ [name +:+ ": invoking gmail_agent"])
                                  ++ [name +:+ ": gmail_agent finished"]
                                  ++ [name +:+ ": failed to update workflow status: "
                                           +:+ repr_of e])
                          (with_result res s)),
                    mkStore (with_log ((log_of s ++ [name +:+ ": invoking gmail_agent"])
                                  ++ [name +:+ ": gmail_agent finished"]
                                  ++ [name +:+ ": failed to update workflow status: "
                                           +:+ repr_of e])
                          (with_result res s))
                       ((h ++ [AgentInvoke
                                 (message (PyStr.or_empty (dict_get (raw_input s))))
                                 (Ok res)])
                        ++ [UpdateStatus rid "completed" res (Raise e)]))).
  { unfold branch_run. rewrite Hres. cbv zeta. rewrite Htruthy, Hrid. simpl default.
    rewrite Hupd. unfold log_of, with_log, with_result. simpl.
    by rewrite <- !app_assoc. }
  eexists. split; [|split; [|split]].
  - rewrite (branch_node_run _ _ _ _ _ _ _ Hn). exact Hrun.
  - reflexivity.
  - unfold log_of at 1. simpl. by rewrite <- !app_assoc.
  - intros fuel seen. rewrite (drive_branch_node _ _ _ _ _ _ _ _ _ Hn). by rewrite Hrun.
Qed.

Lemma branch_node_survives_update_fault_witness :
  exists s',
    process_inbox_node ext_update_down
        (mkStore (with_run_id (Some "run-1") (initial_state "Process my inbox")) [])
      = (Ok s',
         mkStore s'
           (([] ++ [AgentInvoke (process_inbox_message "Process my inbox")
                                (Ok agent_reply)])
            ++ [UpdateStatus "run-1" "completed" agent_reply
                  (Raise (Exception "OperationalError('connection refused')"))]))
    /\ result s' = Some agent_reply
    /\ log_of s' = [] ++ ["process_inbox_node: invoking gmail_agent";
                          "process_inbox_node: gmail_agent finished";
                          "process_inbox_node: failed to update workflow status: OperationalError('connection refused')"]
    /\ forall fuel seen,
         run_status (drive (2 + fuel) (build_app ext_update_down) "process_inbox"
                           (mkStore (with_run_id (Some "run-1")
                                       (initial_state "Process my inbox")) [])
                           seen) = Finished.
Proof.
  apply (branch_node_survives_update_fault ext_update_down _ _ _ _
           (with_run_id (Some "run-1") (initial_state "Process my inbox")) []
           "run-1" agent_reply (Exception "OperationalError('connection refused')")
           (branch_process_inbox _)).
  - reflexivity.
  - discriminate.
  - reflexivity.
  - reflexivity.
Defined.

(** ** No run id, no status update (C10) *)

(** C10. When [run_id] is absent, [None] or empty, a branch node makes one
    external call, to the agent, and none to the run table; when the agent
    returns, the node writes [result], appends its two log lines and nothing
    about the update, and returns. *)
Theorem branch_node_skips_update_without_run_id (ext : Externals) key name message
    node (s : AgentState) (h : list Call) :
  BranchNode ext key name message node ->
  run_id s = None \/ run_id s = Some None \/ run_id s = Some (Some "") ->
  calls (snd (node (mkStore s h)))
    = h ++ [AgentInvoke
              (message (PyStr.or_empty (dict_get (raw_input s))))
              (gmail_agent_invoke ext h
                 (message (PyStr.or_empty (dict_get (raw_input s)))))]
  /\ forall res,
       gmail_agent_invoke ext h (message (PyStr.or_empty (dict_get (raw_input s))))
         = Ok res ->
       exists s',
         node (mkStore s h)
           = (Ok s',
              mkStore s'
                (h ++ [AgentInvoke (message (PyStr.or_empty (dict_get (raw_input s))))
                                   (Ok res)]))
         /\ result s' = Some res
         /\ log_of s' = log_of s ++ [name +:+ ": invoking gmail_agent";
                                     name +:+ ": gmail_agent finished"].
Proof.
  intros Hn Hrid.
  assert (Hfalsy : PyStr.truthy (dict_get (run_id s)) = false).
  { by destruct Hrid as [-> | [-> | ->]]. }
  rewrite (branch_node_run _ _ _ _ _ _ _ Hn). unfold branch_run. split.
  - destruct (gmail_agent_invoke ext h _); [|done]. cbv zeta. by rewrite Hfalsy.
  - intros res Hres. rewrite Hres. cbv zeta. rewrite Hfalsy.
    eexists. split; [reflexivity|]. split; [reflexivity|].
    unfold log_of at 1. simpl. by rewrite log_of_with_log, <- app_assoc.
Qed.

Lemma branch_node_skips_update_without_run_id_witness :
  calls (snd (daily_summary_node ext_ok (mkStore (initial_state "daily digest") [])))
    = [] ++ [AgentInvoke
               (daily_summary_message
                  (PyStr.or_empty (dict_get (raw_input (initial_state "daily digest")))))
               (gmail_agent_invoke ext_ok []
                  (daily_summary_message
                     (PyStr.or_empty
                        (dict_get (raw_input (initial_state "daily digest"))))))].
Proof.
  apply (branch_node_skips_update_without_run_id ext_ok _ _ _ _
           (initial_state "daily digest") [] (branch_daily_summary _)).
  by left.
Defined.

Example skip_update_on_empty_run_id :
  calls (snd (process_inbox_node ext_ok
                (mkStore (with_run_id (Some "") (initial_state "Process my inbox")) [])))
  = [AgentInvoke (process_inbox_message "Process my inbox") (Ok agent_reply)].
Proof. reflexivity. Qed.

(** ** The log only grows (C9) *)

Lemma prefix_of_app_r (l k : list string) : l `prefix_of` l ++ k.
Proof. by exists k. Qed.

Lemma entry_node_appends_only (ext : Externals) : appends_only (entry_node ext).
Proof.
  intros s h. rewrite entry_node_run.
  destruct (create_workflow_run ext h None "unknown") as [rid|e]; cbv zeta.
  - destruct (PyStr.truthy (dict_get (raw_input s))); split;
      try (intros s' σ' [= <- <-]); apply prefix_of_app_r.
  - split; [apply prefix_of_app_r | by intros s' σ' [=]].
Qed.

Lemma task_router_node_appends_only : appends_only task_router_node.
Proof.
  intros s h. rewrite task_router_node_run. cbv zeta.
  split; try (intros s' σ' [= <- <-]); apply prefix_of_app_r.
Qed.

Lemma branch_node_appends_only (ext : Externals) key name message node :
  BranchNode ext key name message node -> appends_only node.
Proof.
  intros Hn s h. rewrite (branch_node_run _ _ _ _ _ _ _ Hn). unfold branch_run.
  destruct (gmail_agent_invoke ext h _) as [res|e]; cbv zeta.
  - destruct (PyStr.truthy (dict_get (run_id s)));
      split; try (intros s' σ' [= <- <-]);
      rewrite !log_of_with_log, <- ?app_assoc; apply prefix_of_app_r.
  - split; [apply prefix_of_app_r | by intros s' σ' [=]].
Qed.

Lemma assoc_elem_of {V : Type} (k : string) (l : list (string * V)) (v : V) :
  assoc k l = Some v -> (k, v) ∈ l.
Proof.
  induction l as [|[k' v'] l IH]; simpl; [done|].
  destruct (String.eqb_spec k k') as [->|Hne].
  - intros [= ->]. apply elem_of_cons. by left.
  - intros H. apply elem_of_cons. right. by apply IH.
Qed.

(** Over any graph whose nodes only append, a run only appends. *)
Lemma drive_log_prefix (g : StateGraph) :
  Forall (fun entry => appends_only entry.2) (nodes g) ->
  forall fuel cur σ seen,
    log_of (st σ) `prefix_of` log_of (st (final (drive fuel g cur σ seen))).
Proof.
  intros Hall. induction fuel as [|fuel IH]; intros cur σ seen; [done|].
  rewrite drive_step. destruct (String.eqb cur END); [done|].
  destruct (assoc cur (nodes g)) as [node|] eqn:Hnode; [|done].
  apply assoc_elem_of in Hnode. rewrite Forall_forall in Hall.
  specialize (Hall _ Hnode). simpl in Hall.
  destruct σ as [s h]. destruct (Hall s h) as [Hraise Hok].
  destruct (node (mkStore s h)) as [[s'|e] σ'] eqn:Hrun.
  - specialize (Hok s' σ' eq_refl).
    destruct (successor g cur s') as [nxt|]; [|done].
    etrans; [exact Hok|]. apply (IH nxt (mkStore s' (calls σ'))).
  - exact Hraise.
Qed.

(** C9. Every node registered in the graph only appends to the log: the
    log of the state it is given is a prefix of the log it leaves, whether
    it returns or raises, and of the log of the state it returns.  So over a
    run, whatever its length and outcome, the initial log is a prefix of
    the final one and the length of the log does not decrease. *)
Theorem nodes_only_append_to_log (ext : Externals) :
  Forall (fun entry => appends_only entry.2) (nodes (build_app ext))
  /\ forall fuel s h,
       log_of s `prefix_of` log_of (st (final (invoke fuel (build_app ext) s h)))
       /\ length (log_of s)
          <= length (log_of (st (final (invoke fuel (build_app ext) s h)))).
Proof.
  assert (Hall : Forall (fun entry => appends_only entry.2) (nodes (build_app ext))).
  { repeat apply Forall_cons_2; simpl.
    - apply entry_node_appends_only.
    - apply task_router_node_appends_only.
    - apply (branch_node_appends_only ext _ _ _ _ (branch_process_inbox ext)).
    - apply (branch_node_appends_only ext _ _ _ _ (branch_daily_summary ext)).
    - apply Forall_nil_2. }
  split; [exact Hall|]. intros fuel s h.
  assert (Hp : log_of s `prefix_of`
               log_of (st (final (invoke fuel (build_app ext) s h)))).
  { unfold invoke. change (entry_point (build_app ext)) with (Some "entry").
    apply (drive_log_prefix _ Hall fuel "entry" (mkStore s h) []). }
  split; [exact Hp|]. by apply prefix_length.
Qed.

Example log_kept_in_order :
  log_of (st (final (invoke 10 (build_app ext_ok)
                       (with_log ["resumed"; "resumed"] (initial_state "daily")) [])))
  = ["resumed"; "resumed";
     "entry_node: starting";
     "entry_node: created workflow_run run_id=run-1";
     "task_router_node: task set to 'daily_summary'";
     "daily_summary_node: invoking gmail_agent";
     "daily_summary_node: gmail_agent finished";
     "daily_summary_node: workflow_run run-1 marked as completed"].
Proof. reflexivity. Qed.

(** ** The state machine (C6) *)

Lemma task_router_sets_route (s : AgentState) (h : list Call) :
  task (st (snd (task_router_node (mkStore s h))))
  = Some (route_by_task (st (snd (task_router_node (mkStore s h))))).
Proof.
  rewrite task_router_node_run. cbv zeta. unfold route_by_task. simpl.
  by destruct (_ || _).
Qed.

Lemma branch_run_keeps_task (ext : Externals) name message (s : AgentState)
    (h : list Call) :
  task (st (snd (branch_run ext name message s h))) = task s
  /\ forall s' σ', branch_run ext name message s h = (Ok s', σ') -> task s' = task s.
Proof.
  unfold branch_run. destruct (gmail_agent_invoke ext h _); cbv zeta.
  - destruct (PyStr.truthy (dict_get (run_id s))); split; try done;
      by intros s' σ' [= <- <-].
  - split; [done | by intros s' σ' [=]].
Qed.

Lemma edge_spec_transitions (ext : Externals) (src dst : string) :
  edge (build_app ext) src dst <-> (src, dst) ∈ spec_transitions.
Proof.
  unfold spec_transitions. rewrite !elem_of_cons, elem_of_nil. split.
  - intros [s Hs]. unfold successor in Hs.
    change (edges (build_app ext))
      with [("entry", "task_router"); ("process_inbox", END); ("daily_summary", END)]
      in Hs.
    change (conditional_edges (build_app ext))
      with [("task_router",
             (route_by_task,
              [("process_inbox", "process_inbox"); ("daily_summary", "daily_summary")]))]
      in Hs.
    simpl in Hs.
    destruct (String.eqb_spec src "entry") as [->|_]; [injection Hs as <-; tauto|].
    destruct (String.eqb_spec src "process_inbox") as [->|_]; [injection Hs as <-; tauto|].
    destruct (String.eqb_spec src "daily_summary") as [->|_]; [injection Hs as <-; tauto|].
    destruct (String.eqb_spec src "task_router") as [->|_]; [|done].
    destruct (route_by_task_cases s) as [[_ Hr]|[_ Hr]]; rewrite Hr in Hs;
      injection Hs as <-; tauto.
  - intros [[= -> ->]|[[= -> ->]|[[= -> ->]|[[= -> ->]|[[= -> ->]|[]]]]]].
    + by exists empty_state.
    + by exists empty_state.
    + by exists (with_task "daily_summary" empty_state).
    + by exists empty_state.
    + by exists empty_state.
Qed.

(** C6. The compiled graph is the spec's state machine.  Execution starts
    at [entry]; the edges, over all states, are exactly entry to
    task_router, task_router to either branch, and each branch to [END];
    the successor of [entry] and of each branch is the same in every state,
    the successor of [task_router] is what [route_by_task] answers; [END]
    has no successor.  Every run given four steps or more visits [entry],
    then [task_router], then the branch named by the task it set, and ends
    there at [END], unless a node raised on the way, in which case it
    stopped in [entry] or in that branch. *)
Theorem build_app_state_machine (ext : Externals) :
  entry_point (build_app ext) = Some "entry"
  /\ (forall src dst, edge (build_app ext) src dst <-> (src, dst) ∈ spec_transitions)
  /\ (forall s, successor (build_app ext) "entry" s = Some "task_router")
  /\ (forall s, successor (build_app ext) "task_router" s = Some (route_by_task s))
  /\ (forall s, successor (build_app ext) "process_inbox" s = Some END)
  /\ (forall s, successor (build_app ext) "daily_summary" s = Some END)
  /\ (forall s, successor (build_app ext) END s = None)
  /\ (forall fuel s h,
        exists b, (b = "process_inbox" \/ b = "daily_summary")
          /\ ((run_status (invoke (4 + fuel) (build_app ext) s h) = Finished
               /\ visited (invoke (4 + fuel) (build_app ext) s h)
                  = ["entry"; "task_router"; b]
               /\ task (st (final (invoke (4 + fuel) (build_app ext) s h))) = Some b)
              \/ (exists e,
                    run_status (invoke (4 + fuel) (build_app ext) s h) = Faulted e
                    /\ (visited (invoke (4 + fuel) (build_app ext) s h) = ["entry"]
                        \/ visited (invoke (4 + fuel) (build_app ext) s h)
                           = ["entry"; "task_router"; b])))).
Proof.
  split; [done|]. split; [apply edge_spec_transitions|].
  split; [done|]. split; [apply successor_task_router|].
  split; [done|]. split; [done|]. split; [done|].
  intros fuel s h. rewrite invoke_run.
  destruct (entry_node ext (mkStore s h)) as [[s1|e] σ1].
  - cbv zeta.
    pose proof (task_router_sets_route s1 (calls σ1)) as Htask.
    set (s2 := st (snd (task_router_node (mkStore s1 (calls σ1))))) in *.
    destruct (branch_of_route ext s2) as (name & message & node & Hn).
    destruct (branch_registered _ _ _ _ _ Hn) as (_ & _ & _ & Hkey).
    exists (route_by_task s2). split; [exact Hkey|].
    rewrite (drive_branch_node _ _ _ _ _ _ _ _ _ Hn).
    destruct (branch_run_keeps_task ext name message s2 (calls σ1)) as [_ Hkeep].
    destruct (branch_run ext name message s2 (calls σ1)) as [[s3|e] σ3].
    + left. repeat split. simpl. rewrite (Hkeep s3 σ3 eq_refl). exact Htask.
    + right. exists e. split; [done | by right].
  - exists "process_inbox". split; [by left|]. right. exists e. split; [done | by left].
Qed.

Example run_path_daily :
  visited (invoke 4 (build_app ext_ok) (initial_state "Daily summary please") [])
  = ["entry"; "task_router"; "daily_summary"].
Proof. reflexivity. Qed.

(** ** The default instruction (C8) *)

Lemma entry_node_on_default (ext : Externals) (s : AgentState) (h : list Call) :
  PyStr.truthy (dict_get (raw_input s)) = false ->
  fst (entry_node ext (mkStore s h))
    = fst (entry_node ext (mkStore (with_raw_input (Some "Process my inbox.") s) h))
  /\ calls (snd (entry_node ext (mkStore s h)))
     = calls (snd (entry_node ext
                     (mkStore (with_raw_input (Some "Process my inbox.") s) h))).
Proof.
  intros Hfalsy. rewrite !entry_node_run.
  destruct (create_workflow_run ext h None "unknown"); [|done].
  cbv zeta. rewrite Hfalsy. by destruct s.
Qed.

(** The run from an empty instruction takes the course of the run from the
    default instruction, whatever the collaborators answer. *)
Lemma invoke_on_default (ext : Externals) (fuel : nat) (s : AgentState)
    (h : list Call) :
  PyStr.truthy (dict_get (raw_input s)) = false ->
  run_status (invoke fuel (build_app ext) s h)
    = run_status (invoke fuel (build_app ext)
                         (with_raw_input (Some "Process my inbox.") s) h)
  /\ visited (invoke fuel (build_app ext) s h)
     = visited (invoke fuel (build_app ext)
                       (with_raw_input (Some "Process my inbox.") s) h).
Proof.
  intros Hfalsy. unfold invoke.
  change (entry_point (build_app ext)) with (Some "entry"). cbv iota beta.
  destruct fuel as [|fuel]; [done|]. rewrite !drive_step.
  change (String.eqb "entry" END) with false.
  change (assoc "entry" (nodes (build_app ext))) with (Some (entry_node ext)).
  cbv iota beta.
  destruct (entry_node_on_default ext s h Hfalsy) as [Hout Hcalls].
  destruct (entry_node ext (mkStore s h)) as [o σ].
  destruct (entry_node ext (mkStore (with_raw_input (Some "Process my inbox.") s) h))
    as [o' σ'].
  simpl in Hout, Hcalls. subst o'. rewrite Hcalls. by destruct o.
Qed.

(** C8. From a state whose [raw_input] is absent, [None] or empty, the
    entry node, when it returns (that is, when its call to the run table
    returns), leaves [raw_input] set to "Process my inbox.".  The run then
    takes the course of the run from that instruction, whatever the
    collaborators answer: same outcome, same nodes visited.  With the agent
    answering, it visits [entry], [task_router] and [process_inbox] and
    reaches [END], the default instruction in [raw_input] and the agent's
    answer in [result]. *)
Theorem entry_node_defaults_empty_input (ext : Externals) (s : AgentState)
    (h : list Call) :
  raw_input s = None \/ raw_input s = Some None \/ raw_input s = Some (Some "") ->
  (forall rid,
     create_workflow_run ext h None "unknown" = Ok rid ->
     exists s1,
       entry_node ext (mkStore s h)
         = (Ok s1, mkStore s1 (h ++ [CreateRun None "unknown" (Ok rid)]))
       /\ raw_input s1 = Some (Some "Process my inbox."))
  /\ (forall fuel,
        run_status (invoke fuel (build_app ext) s h)
          = run_status (invoke fuel (build_app ext)
                               (with_raw_input (Some "Process my inbox.") s) h)
        /\ visited (invoke fuel (build_app ext) s h)
           = visited (invoke fuel (build_app ext)
                             (with_raw_input (Some "Process my inbox.") s) h))
  /\ (forall rid res fuel,
        create_workflow_run ext h None "unknown" = Ok rid ->
        gmail_agent_invoke ext (h ++ [CreateRun None "unknown" (Ok rid)])
            (process_inbox_message "Process my inbox.") = Ok res ->
        run_status (invoke (4 + fuel) (build_app ext) s h) = Finished
        /\ visited (invoke (4 + fuel) (build_app ext) s h)
           = ["entry"; "task_router"; "process_inbox"]
        /\ raw_input (st (final (invoke (4 + fuel) (build_app ext) s h)))
           = Some (Some "Process my inbox.")
        /\ result (st (final (invoke (4 + fuel) (build_app ext) s h))) = Some res).
Proof.
  intros Hraw.
  assert (Hfalsy : PyStr.truthy (dict_get (raw_input s)) = false).
  { by destruct Hraw as [-> | [-> | ->]]. }
  assert (Hentry : forall rid,
             create_workflow_run ext h None "unknown" = Ok rid ->
             entry_node ext (mkStore s h)
             = (Ok (with_raw_input (Some "Process my inbox.")
                      (with_log (log_of s ++ ["entry_node: starting";
                                   "entry_node: created workflow_run run_id=" +:+ rid])
                                (with_run_id (Some rid) s))),
                mkStore (with_raw_input (Some "Process my inbox.")
                      (with_log (log_of s ++ ["entry_node: starting";
                                   "entry_node: created workflow_run run_id=" +:+ rid])
                                (with_run_id (Some rid) s)))
                        (h ++ [CreateRun None "unknown" (Ok rid)]))).
  { intros rid Hcreate. rewrite entry_node_run, Hcreate. cbv zeta. by rewrite Hfalsy. }
  split; [|split].
  - intros rid Hcreate. eexists. split; [exact (Hentry rid Hcreate) | reflexivity].
  - intros fuel. by apply invoke_on_default.
  - intros rid res fuel Hcreate Hres.
    assert (Hrun : exists s3 h3,
               invoke (4 + fuel) (build_app ext) s h
                 = mkRun Finished ["entry"; "task_router"; "process_inbox"]
                         (mkStore s3 h3)
               /\ raw_input s3 = Some (Some "Process my inbox.")
               /\ result s3 = Some res).
    { rewrite invoke_run, (Hentry rid Hcreate). cbv zeta.
      rewrite task_router_node_run. cbv zeta. simpl snd. simpl st.
      change (route_by_task _) with "process_inbox".
      rewrite (drive_branch_node _ _ _ _ _ _ _ _ _ (branch_process_inbox ext)).
      unfold branch_run. simpl raw_input. simpl dict_get. simpl PyStr.or_empty.
      simpl calls. rewrite Hres. cbv zeta.
      destruct (PyStr.truthy (Some rid)); eexists _, _; (split; [reflexivity|]);
        by split. }
    destruct Hrun as (s3 & h3 & -> & Hraw3 & Hres3). by repeat split.
Qed.

Lemma entry_node_defaults_empty_input_witness :
  (raw_input (initial_state "") = None
   \/ raw_input (initial_state "") = Some None
   \/ raw_input (initial_state "") = Some (Some ""))
  /\ forall rid res fuel,
       create_workflow_run ext_ok [] None "unknown" = Ok rid ->
       gmail_agent_invoke ext_ok ([] ++ [CreateRun None "unknown" (Ok rid)])
           (process_inbox_message "Process my inbox.") = Ok res ->
       run_status (invoke (4 + fuel) (build_app ext_ok) (initial_state "") [])
         = Finished
       /\ visited (invoke (4 + fuel) (build_app ext_ok) (initial_state "") [])
          = ["entry"; "task_router"; "process_inbox"]
       /\ raw_input (st (final (invoke (4 + fuel) (build_app ext_ok)
                                       (initial_state "") [])))
          = Some (Some "Process my inbox.")
       /\ result (st (final (invoke (4 + fuel) (build_app ext_ok)
                                    (initial_state "") [])))
          = Some res.
Proof.
  split; [right; right; reflexivity|].
  apply (entry_node_defaults_empty_input ext_ok (initial_state "") []).
  right. right. reflexivity.
Defined.

Example run_reaches_end_on_empty_input :
  run_status (invoke 4 (build_app ext_ok) (initial_state "") []) = Finished
  /\ raw_input (st (final (invoke 4 (build_app ext_ok) (initial_state "") [])))
     = Some (Some "Process my inbox.").
Proof. by split. Qed.

(** When creating the run raises, the entry node raises before it looks at
    [raw_input]. *)
Example entry_node_create_fault :
  entry_node ext_create_down (mkStore empty_state [])
  = (Raise (Exception "OperationalError('connection refused')"),
     mkStore (with_log ["entry_node: starting"] empty_state)
             [CreateRun None "unknown"
                (Raise (Exception "OperationalError('connection refused')"))]).
Proof. reflexivity. Qed.

Example default_on_absent_input :
  raw_input (st (snd (entry_node ext_ok (mkStore empty_state []))))
  = Some (Some "Process my inbox.").
Proof. reflexivity. Qed.

Example input_kept_when_given :
  raw_input (st (snd (entry_node ext_ok (mkStore (initial_state "daily") []))))
  = Some (Some "daily").
Proof. reflexivity. Qed.

(** ** The run record's lifecycle (C3) *)

Lemma replay_app (now : nat) (db : gmap string Ledger.WorkflowRun) (h k : list Call) :
  Ledger.replay now db (h ++ k)
  = Ledger.replay (now + length h) (Ledger.replay now db h) k.
Proof.
  revert now db. induction h as [|c h IH]; intros now db; simpl.
  - by rewrite Nat.add_0_r.
  - rewrite IH. f_equal. lia.
Qed.

(** The three calls of a run written to a table in which the run's id is
    new: the status changes they make and the record they leave. *)
Lemma run_calls_on_table (now : nat) (db : gmap string Ledger.WorkflowRun)
    (rid content : string) (res : Any) (r : Outcome unit) :
  db !! rid = None ->
  Ledger.transitions now db
      [CreateRun None "unknown" (Ok rid); AgentInvoke content (Ok res);
       UpdateStatus rid "completed" res r]
    = match r with
      | Ok _ => [(rid, ("running", "completed"))]
      | Raise _ => []
      end
  /\ Ledger.status <$>
       (Ledger.replay now db
          [CreateRun None "unknown" (Ok rid); AgentInvoke content (Ok res);
           UpdateStatus rid "completed" res r] !! rid)
     = Some match r with
            | Ok _ => "completed"
            | Raise _ => "running"
            end.
Proof.
  intros Hfresh. simpl. rewrite Hfresh. unfold Ledger.create, Ledger.update_status.
  destruct r as [[]|e]; simpl.
  - rewrite lookup_insert_eq. split; [done|].
    by rewrite lookup_alter_eq, lookup_insert_eq.
  - split; [done|]. by rewrite lookup_insert_eq.
Qed.

(** A run that reaches [END], step by step. *)
Lemma finished_run (ext : Externals) (fuel : nat) (s : AgentState) (h : list Call) :
  run_status (invoke (4 + fuel) (build_app ext) s h) = Finished ->
  exists rid s1 s2 name message node s3 σ3,
    create_workflow_run ext h None "unknown" = Ok rid
    /\ entry_node ext (mkStore s h)
       = (Ok s1, mkStore s1 (h ++ [CreateRun None "unknown" (Ok rid)]))
    /\ run_id s1 = Some (Some rid)
    /\ task_router_node (mkStore s1 (h ++ [CreateRun None "unknown" (Ok rid)]))
       = (Ok s2, mkStore s2 (h ++ [CreateRun None "unknown" (Ok rid)]))
    /\ run_id s2 = run_id s1
    /\ BranchNode ext (route_by_task s2) name message node
    /\ branch_run ext name message s2 (h ++ [CreateRun None "unknown" (Ok rid)])
       = (Ok s3, σ3)
    /\ invoke (4 + fuel) (build_app ext) s h
       = mkRun Finished ["entry"; "task_router"; route_by_task s2]
               (mkStore s3 (calls σ3)).
Proof.
  intros Hfin. rewrite invoke_run in Hfin |- *.
  pose proof (entry_node_run ext s h) as He.
  destruct (create_workflow_run ext h None "unknown") as [rid|e];
    [|by rewrite He in Hfin].
  cbv zeta in He.
  assert (Hrid1 : run_id (if PyStr.truthy (dict_get (raw_input s))
                          then with_log (log_of s ++ ["entry_node: starting";
                                 "entry_node: created workflow_run run_id=" +:+ rid])
                                 (with_run_id (Some rid) s)
                          else with_raw_input (Some "Process my inbox.")
                                 (with_log (log_of s ++ ["entry_node: starting";
                                    "entry_node: created workflow_run run_id=" +:+ rid])
                                    (with_run_id (Some rid) s)))
                  = Some (Some rid)).
  { by destruct (PyStr.truthy (dict_get (raw_input s))). }
  revert He Hrid1. generalize (if PyStr.truthy (dict_get (raw_input s))
                          then with_log (log_of s ++ ["entry_node: starting";
                                 "entry_node: created workflow_run run_id=" +:+ rid])
                                 (with_run_id (Some rid) s)
                          else with_raw_input (Some "Process my inbox.")
                                 (with_log (log_of s ++ ["entry_node: starting";
                                    "entry_node: created workflow_run run_id=" +:+ rid])
                                    (with_run_id (Some rid) s))).
  intros s1 He Hrid1. rewrite He in Hfin |- *. cbv zeta in Hfin |- *.
  simpl calls in Hfin |- *.
  pose proof (task_router_node_run s1 (h ++ [CreateRun None "unknown" (Ok rid)])) as Ht.
  cbv zeta in Ht.
  assert (Hrid2 : run_id (with_log
             (log_of s1 ++ ["task_router_node: task set to '" +:+
                (if PyStr.contains "summary"
                      (PyStr.lower (PyStr.or_empty (dict_get (raw_input s1))))
                    || PyStr.contains "daily"
                         (PyStr.lower (PyStr.or_empty (dict_get (raw_input s1))))
                 then "daily_summary" else "process_inbox") +:+ "'"])
             (with_task
                (if PyStr.contains "summary"
                      (PyStr.lower (PyStr.or_empty (dict_get (raw_input s1))))
                    || PyStr.contains "daily"
                         (PyStr.lower (PyStr.or_empty (dict_get (raw_input s1))))
                 then "daily_summary" else "process_inbox") s1)) = run_id s1)
    by done.
  revert Ht Hrid2. generalize (with_log
             (log_of s1 ++ ["task_router_node: task set to '" +:+
                (if PyStr.contains "summary"
                      (PyStr.lower (PyStr.or_empty (dict_get (raw_input s1))))
                    || PyStr.contains "daily"
                         (PyStr.lower (PyStr.or_empty (dict_get (raw_input s1))))
                 then "daily_summary" else "process_inbox") +:+ "'"])
             (with_task
                (if PyStr.contains "summary"
                      (PyStr.lower (PyStr.or_empty (dict_get (raw_input s1))))
                    || PyStr.contains "daily"
                         (PyStr.lower (PyStr.or_empty (dict_get (raw_input s1))))
                 then "daily_summary" else "process_inbox") s1)).
  intros s2 Ht Hrid2. rewrite Ht in Hfin |- *. simpl snd in Hfin |- *.
  simpl st in Hfin |- *.
  destruct (branch_of_route ext s2) as (name & message & node & Hn).
  rewrite (drive_branch_node _ _ _ _ _ _ _ _ _ Hn) in Hfin |- *.
  destruct (branch_run ext name message s2 _) as [[s3|e] σ3] eqn:Hb; [|done].
  by exists rid, s1, s2, name, message, node, s3, σ3.
Qed.

(** C3.  A run that reaches [END] has made exactly three external calls, in
    this order: one [create_workflow_run], the agent, and one
    [update_workflow_status], for the id the create call returned and with
    status "completed".  On the table (the id being non-empty and new, as
    the table's contract has it) the record is created with status
    "running" and changes status at most once, from "running" to
    "completed", which is a transition the lifecycle allows; it ends
    "completed" when the update went through and is still "running" when
    the update raised. *)
Theorem run_ledger_lifecycle (ext : Externals) (fuel : nat) (s : AgentState)
    (h : list Call) :
  run_status (invoke (4 + fuel) (build_app ext) s h) = Finished ->
  (forall rid, create_workflow_run ext h None "unknown" = Ok rid ->
               rid <> "" /\ Ledger.table_after h !! rid = None) ->
  exists rid content res r new,
    new = [CreateRun None "unknown" (Ok rid); AgentInvoke content (Ok res);
           UpdateStatus rid "completed" res r]
    /\ calls (final (invoke (4 + fuel) (build_app ext) s h)) = h ++ new
    /\ count_calls is_create new = 1
    /\ count_calls is_update new = 1
    /\ Ledger.transitions (length h) (Ledger.table_after h) new
       = match r with
         | Ok _ => [(rid, ("running", "completed"))]
         | Raise _ => []
         end
    /\ Forall (fun change => Ledger.valid_transition change.2.1 change.2.2)
              (Ledger.transitions (length h) (Ledger.table_after h) new)
    /\ Ledger.status <$>
         (Ledger.table_after (calls (final (invoke (4 + fuel) (build_app ext) s h)))
            !! rid)
       = Some match r with
              | Ok _ => "completed"
              | Raise _ => "running"
              end.
Proof.
  intros Hfin Hcontract.
  destruct (finished_run ext fuel s h Hfin)
    as (rid & s1 & s2 & name & message & node & s3 & σ3
        & Hcreate & He & Hrid1 & Ht & Hrid2 & Hn & Hb & ->).
  destruct (Hcontract rid Hcreate) as [Hne Hfresh].
  unfold branch_run in Hb.
  set (content := message (PyStr.or_empty (dict_get (raw_input s2)))) in Hb.
  destruct (gmail_agent_invoke ext _ content) as [res|e]; [|done].
  cbv zeta in Hb. rewrite Hrid2, Hrid1 in Hb. simpl dict_get in Hb.
  assert (Htruthy : PyStr.truthy (Some rid) = true).
  { simpl. by destruct (String.eqb_spec rid ""). }
  rewrite Htruthy in Hb. simpl default in Hb.
  set (r := update_workflow_status ext _ rid "completed" res) in Hb.
  injection Hb as _ <-.
  exists rid, content, res, r, [CreateRun None "unknown" (Ok rid);
    AgentInvoke content (Ok res); UpdateStatus rid "completed" res r].
  split; [reflexivity|].
  destruct (run_calls_on_table (length h) (Ledger.table_after h) rid content res r Hfresh)
    as [Htrans Hstatus].
  split; [simpl; by rewrite <- !app_assoc|].
  split; [done|]. split; [done|]. split; [exact Htrans|]. split.
  - rewrite Htrans. destruct r; [|by constructor].
    constructor; [|by constructor]. split; [done | by left].
  - simpl calls. rewrite <- !app_assoc. simpl app.
    unfold Ledger.table_after at 1. rewrite replay_app. exact Hstatus.
Qed.

Lemma run_ledger_lifecycle_witness :
  exists rid content res r new,
    new = [CreateRun None "unknown" (Ok rid); AgentInvoke content (Ok res);
           UpdateStatus rid "completed" res r]
    /\ calls (final (invoke (4 + 0) (build_app ext_ok)
                            (initial_state "Process my inbox") []))
       = [] ++ new
    /\ count_calls is_create new = 1
    /\ count_calls is_update new = 1
    /\ Ledger.transitions (length (@nil Call)) (Ledger.table_after []) new
       = match r with
         | Ok _ => [(rid, ("running", "completed"))]
         | Raise _ => []
         end
    /\ Forall (fun change => Ledger.valid_transition change.2.1 change.2.2)
              (Ledger.transitions (length (@nil Call)) (Ledger.table_after []) new)
    /\ Ledger.status <$>
         (Ledger.table_after
            (calls (final (invoke (4 + 0) (build_app ext_ok)
                                  (initial_state "Process my inbox") [])))
            !! rid)
       = Some match r with
              | Ok _ => "completed"
              | Raise _ => "running"
              end.
Proof.
  apply (run_ledger_lifecycle ext_ok 0 (initial_state "Process my inbox") []).
  - reflexivity.
  - intros rid [= <-]. split; [discriminate | reflexivity].
Defined.

Example ledger_after_run :
  Ledger.transitions 0 ∅
    (calls (final (invoke 4 (build_app ext_ok) (initial_state "Process my inbox") [])))
  = [("run-1", ("running", "completed"))].
Proof. reflexivity. Qed.

Example ledger_after_failed_update :
  Ledger.status <$>
    (Ledger.table_after
       (calls (final (invoke 4 (build_app ext_update_down)
                             (initial_state "Process my inbox") [])))
       !! "run-1")
  = Some "running".
Proof. reflexivity. Qed.

(** * Further properties of the workflow *)

Lemma entry_node_after_entry (ext : Externals) (s : AgentState) (h : list Call)
    (rid : string) :
  create_workflow_run ext h None "unknown" = Ok rid ->
  entry_node ext (mkStore s h)
  = (Ok (after_entry rid s),
     mkStore (after_entry rid s) (h ++ [CreateRun None "unknown" (Ok rid)])).
Proof. intros Hc. by rewrite entry_node_run, Hc. Qed.

Lemma task_router_node_after_router (s : AgentState) (h : list Call) :
  task_router_node (mkStore s h) = (Ok (after_router s), mkStore (after_router s) h).
Proof. by rewrite task_router_node_run. Qed.

Lemma route_after_router (s : AgentState) :
  route_by_task (after_router s) = classify s.
Proof.
  unfold route_by_task, after_router, classify. simpl. by destruct (_ || _).
Qed.

(** Every run with four steps or more, by cases on what the run table and
    the agent answer. *)
Lemma run_cases (ext : Externals) (fuel : nat) (s : AgentState) (h : list Call) :
  (exists e,
     create_workflow_run ext h None "unknown" = Raise e
     /\ invoke (4 + fuel) (build_app ext) s h
        = mkRun (Faulted e) ["entry"]
                (mkStore (with_log (log_of s ++ ["entry_node: starting"]) s)
                         (h ++ [CreateRun None "unknown" (Raise e)])))
  \/ (exists rid name message node,
        create_workflow_run ext h None "unknown" = Ok rid
        /\ BranchNode ext (classify (after_entry rid s)) name message node
        /\ invoke (4 + fuel) (build_app ext) s h
           = match branch_run ext name message (after_router (after_entry rid s))
                              (h ++ [CreateRun None "unknown" (Ok rid)]) with
             | (Raise e, σ3) =>
                 mkRun (Faulted e)
                       ["entry"; "task_router"; classify (after_entry rid s)] σ3
             | (Ok s3, σ3) =>
                 mkRun Finished
                       ["entry"; "task_router"; classify (after_entry rid s)]
                       (mkStore s3 (calls σ3))
             end).
Proof.
  rewrite invoke_run.
  destruct (create_workflow_run ext h None "unknown") as [rid|e] eqn:Hc.
  - right. rewrite (entry_node_after_entry _ _ _ _ Hc). cbv zeta. simpl calls.
    rewrite task_router_node_after_router. simpl snd. simpl st.
    destruct (branch_of_route ext (after_router (after_entry rid s)))
      as (name & message & node & Hn).
    rewrite (drive_branch_node _ _ _ _ _ _ _ _ _ Hn).
    rewrite route_after_router in Hn |- *.
    by exists rid, name, message, node.
  - left. exists e. split; [done|]. by rewrite entry_node_run, Hc.
Qed.

Lemma truthy_or_empty (v : option string) :
  PyStr.truthy v = true -> v = Some (PyStr.or_empty v) /\ PyStr.or_empty v <> "".
Proof.
  destruct v as [t|]; simpl; [|done].
  destruct (String.eqb_spec t "") as [->|Hne]; [done|]. by intros _.
Qed.

Lemma after_entry_fields (rid : string) (s : AgentState) :
  run_id (after_entry rid s) = Some (Some rid)
  /\ task (after_entry rid s) = task s
  /\ emails (after_entry rid s) = emails s
  /\ result (after_entry rid s) = result s
  /\ log_of (after_entry rid s)
     = log_of s ++ ["entry_node: starting";
                    "entry_node: created workflow_run run_id=" +:+ rid]
  /\ dict_get (raw_input (after_entry rid s)) = Some (effective_instruction s).
Proof.
  unfold after_entry, effective_instruction. cbv zeta.
  destruct (PyStr.truthy (dict_get (raw_input s))) eqn:Ht; repeat split.
  simpl. by apply truthy_or_empty.
Qed.

Lemma effective_instruction_nonempty (s : AgentState) : effective_instruction s <> "".
Proof.
  unfold effective_instruction.
  destruct (PyStr.truthy (dict_get (raw_input s))) eqn:Ht; [|done].
  by apply truthy_or_empty.
Qed.

Lemma classify_after_entry (rid : string) (s : AgentState) :
  classify (after_entry rid s)
  = classify (mkState (Some (Some (effective_instruction s))) None None None None None).
Proof.
  unfold classify. destruct (after_entry_fields rid s) as (_ & _ & _ & _ & _ & Hraw).
  by rewrite Hraw.
Qed.

Lemma branch_node_name (ext : Externals) key name message node :
  BranchNode ext key name message node -> name = key +:+ "_node".
Proof. by intros [|]. Qed.

(** ** Fields a node does not own *)

(** X1. What each node leaves alone, whether it returns or raises.  The
    entry node keeps [task], [emails] and [result], and keeps a non-empty
    [raw_input]; the classification node keeps [raw_input], [emails] and
    [result]; a branch node keeps [raw_input], [task] and [emails]. *)
Theorem nodes_keep_other_fields (ext : Externals) (s : AgentState) (h : list Call) :
  (task (st (snd (entry_node ext (mkStore s h)))) = task s
   /\ emails (st (snd (entry_node ext (mkStore s h)))) = emails s
   /\ result (st (snd (entry_node ext (mkStore s h)))) = result s
   /\ (PyStr.truthy (dict_get (raw_input s)) = true ->
       raw_input (st (snd (entry_node ext (mkStore s h)))) = raw_input s))
  /\ (raw_input (st (snd (task_router_node (mkStore s h)))) = raw_input s
      /\ emails (st (snd (task_router_node (mkStore s h)))) = emails s
      /\ result (st (snd (task_router_node (mkStore s h)))) = result s)
  /\ (forall key name message node,
        BranchNode ext key name message node ->
        raw_input (st (snd (node (mkStore s h)))) = raw_input s
        /\ task (st (snd (node (mkStore s h)))) = task s
        /\ emails (st (snd (node (mkStore s h)))) = emails s).
Proof.
  split; [|split].
  - rewrite entry_node_run.
    destruct (create_workflow_run ext h None "unknown"); cbv zeta; [|done].
    destruct (PyStr.truthy (dict_get (raw_input s))); by repeat split.
  - by rewrite task_router_node_run.
  - intros key name message node Hn. rewrite (branch_node_run _ _ _ _ _ _ _ Hn).
    unfold branch_run. destruct (gmail_agent_invoke ext h _); cbv zeta; [|done].
    by destruct (PyStr.truthy (dict_get (run_id s))).
Qed.

(** ** The external calls of a run *)

(** The calls a run adds and how it ends, by cases; [c] is the message the
    agent is sent. *)
Lemma run_calls (ext : Externals) (fuel : nat) (s : AgentState) (h : list Call) :
  exists new,
    calls (final (invoke (4 + fuel) (build_app ext) s h)) = h ++ new
    /\ ((exists e,
           new = [CreateRun None "unknown" (Raise e)]
           /\ run_status (invoke (4 + fuel) (build_app ext) s h) = Faulted e)
        \/ (exists rid key name message node c,
              BranchNode ext key name message node
              /\ key = classify (after_entry rid s)
              /\ c = message (effective_instruction s)
              /\ ((exists e,
                     new = [CreateRun None "unknown" (Ok rid);
                            AgentInvoke c (Raise e)]
                     /\ run_status (invoke (4 + fuel) (build_app ext) s h)
                        = Faulted e)
                  \/ (exists res,
                        rid = ""
                        /\ new = [CreateRun None "unknown" (Ok rid);
                                  AgentInvoke c (Ok res)]
                        /\ run_status (invoke (4 + fuel) (build_app ext) s h)
                           = Finished)
                  \/ (exists res r,
                        rid <> ""
                        /\ new = [CreateRun None "unknown" (Ok rid);
                                  AgentInvoke c (Ok res);
                                  UpdateStatus rid "completed" res r]
                        /\ run_status (invoke (4 + fuel) (build_app ext) s h)
                           = Finished)))).
Proof.
  destruct (run_cases ext fuel s h)
    as [(e & Hc & ->) | (rid & name & message & node & Hc & Hn & ->)].
  - exists [CreateRun None "unknown" (Raise e)]. split; [done|]. left. by exists e.
  - destruct (after_entry_fields rid s) as (Hrid & _ & _ & _ & _ & Hraw).
    unfold branch_run.
    replace (dict_get (raw_input (after_router (after_entry rid s))))
      with (Some (effective_instruction s)) by by rewrite <- Hraw.
    replace (dict_get (run_id (after_router (after_entry rid s))))
      with (Some rid) by (change (run_id (after_router (after_entry rid s)))
                           with (run_id (after_entry rid s)); by rewrite Hrid).
    replace (PyStr.or_empty (Some (effective_instruction s)))
      with (effective_instruction s).
    2:{ rewrite or_empty_id. done. }
    set (c := message (effective_instruction s)).
    destruct (gmail_agent_invoke ext _ c) as [res|e].
    + cbv zeta. simpl PyStr.truthy. destruct (String.eqb_spec rid "") as [->|Hne].
      * simpl negb. cbv iota.
        exists [CreateRun None "unknown" (Ok ""); AgentInvoke c (Ok res)].
        split; [simpl; by rewrite <- app_assoc|]. right.
        exists "", (classify (after_entry "" s)), name, message, node, c.
        repeat split; [done|]. right. left. by exists res.
      * simpl negb. cbv iota. simpl default.
        set (r := update_workflow_status ext _ rid "completed" res).
        exists [CreateRun None "unknown" (Ok rid); AgentInvoke c (Ok res);
                UpdateStatus rid "completed" res r].
        split; [simpl; by rewrite <- !app_assoc|]. right.
        exists rid, (classify (after_entry rid s)), name, message, node, c.
        repeat split; [done|]. right. right. by exists res, r.
    + exists [CreateRun None "unknown" (Ok rid); AgentInvoke c (Raise e)].
      split; [simpl; by rewrite <- app_assoc|]. right.
      exists rid, (classify (after_entry rid s)), name, message, node, c.
      repeat split; [done|]. left. by exists e.
Qed.

(** X2. Whatever the run table and the agent answer, a run makes its
    external calls in one order and stops calling at the first failure that
    matters: [create_workflow_run] once; the agent once, and only after the
    create call returned; [update_workflow_status] once, with status
    "completed" and the agent's answer, and only after the agent returned and
    for a non-empty id.  The run reaches [END] exactly in the cases where
    the create call and the agent returned; a failing update does not change
    that. *)
Theorem run_external_calls (ext : Externals) (fuel : nat) (s : AgentState)
    (h : list Call) :
  exists new,
    calls (final (invoke (4 + fuel) (build_app ext) s h)) = h ++ new
    /\ ((exists e,
           new = [CreateRun None "unknown" (Raise e)]
           /\ run_status (invoke (4 + fuel) (build_app ext) s h) = Faulted e)
        \/ (exists rid c e,
              new = [CreateRun None "unknown" (Ok rid); AgentInvoke c (Raise e)]
              /\ run_status (invoke (4 + fuel) (build_app ext) s h) = Faulted e)
        \/ (exists c res,
              new = [CreateRun None "unknown" (Ok ""); AgentInvoke c (Ok res)]
              /\ run_status (invoke (4 + fuel) (build_app ext) s h) = Finished)
        \/ (exists rid c res r,
              rid <> ""
              /\ new = [CreateRun None "unknown" (Ok rid); AgentInvoke c (Ok res);
                        UpdateStatus rid "completed" res r]
              /\ run_status (invoke (4 + fuel) (build_app ext) s h) = Finished)).
Proof.
  destruct (run_calls ext fuel s h) as (new & Hcalls & Hcases).
  exists new. split; [exact Hcalls|].
  destruct Hcases as [(e & -> & Hst)
    | (rid & key & name & message & node & c & _ & _ & _ &
        [(e & -> & Hst) | [(res & -> & -> & Hst) | (res & r & Hne & -> & Hst)]])].
  - left. by exists e.
  - right. left. by exists rid, c, e.
  - right. right. left. by exists c, res.
  - right. right. right. by exists rid, c, res, r.
Qed.

Example no_agent_call_when_create_fails :
  calls (final (invoke 4 (build_app ext_create_down)
                       (initial_state "Process my inbox") []))
  = [CreateRun None "unknown"
       (Raise (Exception "OperationalError('connection refused')"))].
Proof. reflexivity. Qed.

(** X3. In every run the agent is asked at most once, and what it is sent is
    the message template of the branch that the classification of the
    instruction selects, filled with the instruction itself, letter case
    and all: the caller's [raw_input] when that is a non-empty string, and
    "Process my inbox." otherwise.  The instruction is never empty. *)
Theorem run_agent_message (ext : Externals) (fuel : nat) (s : AgentState)
    (h : list Call) :
  effective_instruction s <> ""
  /\ count_calls is_agent_call
       (drop (length h) (calls (final (invoke (4 + fuel) (build_app ext) s h)))) <= 1
  /\ forall c r,
       AgentInvoke c r
         ∈ drop (length h) (calls (final (invoke (4 + fuel) (build_app ext) s h))) ->
       (classify (initial_state (effective_instruction s)) = "process_inbox"
        /\ c = process_inbox_message (effective_instruction s))
       \/ (classify (initial_state (effective_instruction s)) = "daily_summary"
           /\ c = daily_summary_message (effective_instruction s)).
Proof.
  split; [apply effective_instruction_nonempty|].
  destruct (run_calls ext fuel s h) as (new & -> & Hcases).
  rewrite drop_app_length.
  assert (Hbranch : forall rid key name message node c,
             BranchNode ext key name message node ->
             key = classify (after_entry rid s) ->
             c = message (effective_instruction s) ->
             (classify (initial_state (effective_instruction s)) = "process_inbox"
              /\ c = process_inbox_message (effective_instruction s))
             \/ (classify (initial_state (effective_instruction s)) = "daily_summary"
                 /\ c = daily_summary_message (effective_instruction s))).
  { intros rid key name message node c Hn Hkey ->.
    rewrite classify_after_entry in Hkey. unfold initial_state.
    destruct Hn; [left | right]; by split. }
  destruct Hcases as [(e & -> & _)
    | (rid & key & name & message & node & c & Hn & Hkey & Hc &
        [(e & -> & _) | [(res & _ & -> & _) | (res & r & _ & -> & _)]])].
  - split; [simpl; lia|]. intros c r Hin.
    rewrite !elem_of_cons, elem_of_nil in Hin. by destruct Hin as [[=]|[]].
  - split; [simpl; lia|]. intros c' r Hin.
    rewrite !elem_of_cons, elem_of_nil in Hin.
    destruct Hin as [[=]|[[= -> _]|[]]]. by eapply Hbranch.
  - split; [simpl; lia|]. intros c' r Hin.
    rewrite !elem_of_cons, elem_of_nil in Hin.
    destruct Hin as [[=]|[[= -> _]|[]]]. by eapply Hbranch.
  - split; [simpl; lia|]. intros c' r' Hin.
    rewrite !elem_of_cons, elem_of_nil in Hin.
    destruct Hin as [[=]|[[= -> _]|[[=]|[]]]]. by eapply Hbranch.
Qed.

Example agent_message_keeps_case :
  calls (final (invoke 4 (build_app ext_ok) (initial_state "DAILY digest") []))
  = [CreateRun None "unknown" (Ok "run-1");
     AgentInvoke (daily_summary_message "DAILY digest") (Ok agent_reply);
     UpdateStatus "run-1" "completed" agent_reply (Ok tt)].
Proof. reflexivity. Qed.

(** ** The state a finished run returns *)






(** ** What [run_once] prints *)


Example run_once_prints_daily :
  (Main.run_once ext_ok (Ok tt) (fun _ => "<answer>") 4 "Daily summary please" []).1.2
  = [newline +:+ "=== FINAL RESULT ===";
     "<answer>";
     newline +:+ "=== WORKFLOW LOG ===";
     "- entry_node: starting";
     "- entry_node: created workflow_run run_id=run-1";
     "- task_router_node: task set to 'daily_summary'";
     "- daily_summary_node: invoking gmail_agent";
     "- daily_summary_node: gmail_agent finished";
     "- daily_summary_node: workflow_run run-1 marked as completed"].
Proof. reflexivity. Qed.


(** * The Gmail tools *)

(** ** Headers *)

Lemma extract_header_cons (h : Gmail.Obj) (rest : list Gmail.Obj) (name : string) :
  Gmail._extract_header (h :: rest) name
  = if String.eqb (PyStr.lower (default "" (h !! "name"))) (PyStr.lower name)
    then h !! "value"
    else Gmail._extract_header rest name.
Proof. reflexivity. Qed.

Lemma named_eqb (name : string) (h : Gmail.Obj) :
  String.eqb (PyStr.lower (default "" (h !! "name"))) (PyStr.lower name) = true
  <-> Gmail.named name h.
Proof. unfold Gmail.named, eq_ignore_case. apply String.eqb_eq. Qed.

(** X6. [_extract_header] answers with the first header whose name matches
    the wanted one up to letter case, whatever comes after it: its "value",
    or [None] when that header has no "value", even if a later header of
    the same name has one. *)
Theorem extract_header_first_match (pre suf : list Gmail.Obj) (h : Gmail.Obj)
    (name : string) :
  Forall (fun h' => ~ Gmail.named name h') pre ->
  Gmail.named name h ->
  Gmail._extract_header (pre ++ h :: suf) name = h !! "value".
Proof.
  intros Hpre Hh. induction Hpre as [|h' pre Hh' _ IH]; simpl app;
    rewrite extract_header_cons.
  - apply named_eqb in Hh. by rewrite Hh.
  - destruct (String.eqb _ _) eqn:E; [|exact IH].
    apply named_eqb in E. by destruct Hh'.
Qed.

Lemma extract_header_first_match_witness :
  Gmail._extract_header
    ([Gmail.header "From" "ann@example.org"]
     ++ Gmail.header "SUBJECT" "Invoice 7" :: [Gmail.header "Subject" "shadowed"])
    "subject"
  = Gmail.header "SUBJECT" "Invoice 7" !! "value".
Proof.
  apply extract_header_first_match.
  - constructor; [|constructor]. unfold Gmail.named, eq_ignore_case.
    vm_compute. discriminate.
  - reflexivity.
Defined.

Example extract_header_value_missing :
  Gmail._extract_header
    [{[ "name" := "Subject" ]}; Gmail.header "Subject" "later"] "Subject" = None.
Proof. reflexivity. Qed.

(** X7. What [_extract_header] finds is the value of a header of the list
    whose name matches up to case; it finds nothing when no name matches,
    in particular in an empty list; and two wanted names that differ only
    in letter case get the same answer. *)
Theorem extract_header_sound :
  (forall (hs : list Gmail.Obj) name v,
     Gmail._extract_header hs name = Some v ->
     exists h, h ∈ hs /\ Gmail.named name h /\ h !! "value" = Some v)
  /\ (forall (hs : list Gmail.Obj) name,
        Forall (fun h => ~ Gmail.named name h) hs ->
        Gmail._extract_header hs name = None)
  /\ (forall (hs : list Gmail.Obj) n1 n2,
        eq_ignore_case n1 n2 ->
        Gmail._extract_header hs n1 = Gmail._extract_header hs n2).
Proof.
  split; [|split].
  - intros hs name v. induction hs as [|h hs IH]; [done|].
    rewrite extract_header_cons. destruct (String.eqb _ _) eqn:E.
    + intros Hv. exists h. split; [apply elem_of_cons; by left|].
      split; [by apply named_eqb | done].
    + intros Hv. destruct (IH Hv) as (h' & Hin & Hn & Hv').
      exists h'. split; [apply elem_of_cons; by right | done].
  - intros hs name Hall. induction Hall as [|h hs Hh _ IH]; [done|].
    rewrite extract_header_cons. destruct (String.eqb _ _) eqn:E; [|exact IH].
    apply named_eqb in E. by destruct Hh.
  - intros hs n1 n2 Hn. unfold eq_ignore_case in Hn.
    induction hs as [|h hs IH]; [done|].
    rewrite !extract_header_cons, Hn, IH. done.
Qed.

(** ** Message bodies *)

Lemma decode_parts_cons (w : Gmail.World) (part : Gmail.MessagePart)
    (rest : list Gmail.MessagePart) :
  Gmail.decode_parts w (part :: rest)
  = if String.eqb (default "" (Gmail.mimeType part)) "text/plain" then
      if PyStr.truthy (Gmail.body_data part)
      then Gmail.b64_text w (default "" (Gmail.body_data part))
      else Gmail.decode_parts w rest
    else Gmail.decode_parts w rest.
Proof. reflexivity. Qed.

Lemma mime_is_plain (part : Gmail.MessagePart) :
  String.eqb (default "" (Gmail.mimeType part)) "text/plain" = true
  <-> Gmail.mimeType part = Some "text/plain".
Proof.
  rewrite String.eqb_eq. destruct (Gmail.mimeType part) as [t|]; simpl.
  - split; [by intros -> | by intros [= ->]].
  - split; [done | done].
Qed.

Lemma decode_parts_skip (w : Gmail.World) (part : Gmail.MessagePart)
    (rest : list Gmail.MessagePart) :
  ~ Gmail.plain_with_data part ->
  Gmail.decode_parts w (part :: rest) = Gmail.decode_parts w rest.
Proof.
  intros Hno. rewrite decode_parts_cons.
  destruct (String.eqb _ _) eqn:E; [|done].
  destruct (PyStr.truthy _) eqn:T; [|done].
  destruct Hno. split; [by apply mime_is_plain | done].
Qed.

(** X8. For a payload with "parts", [_decode_body] looks only at the parts
    themselves: when none of them is of type text/plain with data, the body
    is the empty string, whatever the payload's own body holds and whatever
    is nested inside the parts. *)
Theorem decode_body_no_plain_part (w : Gmail.World) mt hs b
    (ps : list Gmail.MessagePart) :
  Forall (fun part => ~ Gmail.plain_with_data part) ps ->
  Gmail._decode_body w (Gmail.mkPart mt hs b (Some ps)) = Ok "".
Proof.
  intros Hall. unfold Gmail._decode_body. simpl Gmail.parts.
  induction Hall as [|part ps Hp _ IH]; [done|].
  by rewrite decode_parts_skip.
Qed.

Lemma decode_body_no_plain_part_witness :
  Gmail._decode_body Gmail.sample_world
    (Gmail.mkPart (Some "multipart/mixed") None
       (Some (Gmail.mkBody None None (Some "dG9w")))
       (Some [Gmail.mkPart (Some "multipart/alternative") None None
                (Some [Gmail.mkPart (Some "text/plain") None
                         (Some (Gmail.mkBody None None (Some "aGk="))) None]);
              Gmail.mkPart (Some "text/plain") None
                (Some (Gmail.mkBody None None (Some ""))) None]))
  = Ok "".
Proof.
  apply decode_body_no_plain_part.
  constructor; [|constructor; [|constructor]]; intros [Hm Hd]; discriminate.
Defined.

(** X9. Among the parts, the first one of type text/plain with data is the
    one decoded: parts before it that are of another type, or of type
    text/plain without data, are passed over, and parts after it are not
    looked at.  The answer is what the decoder makes of that data, an
    exception included. *)
Theorem decode_body_first_plain_part (w : Gmail.World) mt hs b
    (pre suf : list Gmail.MessagePart) (part : Gmail.MessagePart) (d : string) :
  Forall (fun p => ~ Gmail.plain_with_data p) pre ->
  Gmail.mimeType part = Some "text/plain" ->
  Gmail.body_data part = Some d -> d <> "" ->
  Gmail._decode_body w (Gmail.mkPart mt hs b (Some (pre ++ part :: suf)))
  = Gmail.b64_text w d.
Proof.
  intros Hpre Hm Hd Hne. unfold Gmail._decode_body. simpl Gmail.parts.
  induction Hpre as [|p pre Hp _ IH]; simpl app.
  - rewrite decode_parts_cons. apply mime_is_plain in Hm. rewrite Hm, Hd. simpl.
    by destruct (String.eqb_spec d "").
  - by rewrite decode_parts_skip.
Qed.

Lemma decode_body_first_plain_part_witness :
  Gmail._decode_body Gmail.sample_world
    (Gmail.mkPart (Some "multipart/alternative") None None
       (Some ([Gmail.mkPart (Some "text/html") None
                 (Some (Gmail.mkBody None None (Some "PGI+"))) None;
               Gmail.mkPart (Some "text/plain") None None None]
              ++ Gmail.mkPart (Some "text/plain") None
                   (Some (Gmail.mkBody None None (Some "aGk="))) None
              :: [Gmail.mkPart (Some "text/plain") None
                    (Some (Gmail.mkBody None None (Some "bGF0ZXI="))) None])))
  = Gmail.b64_text Gmail.sample_world "aGk=".
Proof.
  apply decode_body_first_plain_part.
  - constructor; [|constructor; [|constructor]]; intros [Hm Hd]; discriminate.
  - reflexivity.
  - reflexivity.
  - discriminate.
Defined.

(** X10. [_decode_body] decodes at most one piece of data and fails only if
    the decoder fails on it: the answer is either the empty string, or what
    the decoder makes of the non-empty data of the payload itself (when it
    has no "parts") or of one of its text/plain parts. *)
Theorem decode_body_total (w : Gmail.World) (payload : Gmail.MessagePart) :
  Gmail._decode_body w payload = Ok ""
  \/ exists d,
       d <> ""
       /\ Gmail._decode_body w payload = Gmail.b64_text w d
       /\ ((Gmail.parts payload = None /\ Gmail.body_data payload = Some d)
           \/ exists ps part,
                Gmail.parts payload = Some ps /\ part ∈ ps
                /\ Gmail.mimeType part = Some "text/plain"
                /\ Gmail.body_data part = Some d).
Proof.
  unfold Gmail._decode_body. destruct (Gmail.parts payload) as [ps|] eqn:Hps.
  - assert (H : Gmail.decode_parts w ps = Ok ""
                \/ exists d part, d <> ""
                     /\ Gmail.decode_parts w ps = Gmail.b64_text w d
                     /\ part ∈ ps /\ Gmail.mimeType part = Some "text/plain"
                     /\ Gmail.body_data part = Some d).
    { clear Hps. induction ps as [|part ps IH]; [by left|].
      rewrite decode_parts_cons.
      destruct (String.eqb _ _) eqn:E.
      - destruct (Gmail.body_data part) as [d|] eqn:Hd; simpl.
        + destruct (String.eqb_spec d "") as [->|Hne]; simpl.
          * destruct IH as [IH|(d' & p' & ? & ? & ? & ? & ?)]; [by left|].
            right. exists d', p'. repeat split; try done.
            apply elem_of_cons. by right.
          * right. exists d, part. repeat split; try done.
            -- apply elem_of_cons. by left.
            -- by apply mime_is_plain.
        + destruct IH as [IH|(d' & p' & ? & ? & ? & ? & ?)]; [by left|].
          right. exists d', p'. repeat split; try done.
          apply elem_of_cons. by right.
      - destruct IH as [IH|(d' & p' & ? & ? & ? & ? & ?)]; [by left|].
        right. exists d', p'. repeat split; try done.
        apply elem_of_cons. by right. }
    destruct H as [H|(d & part & Hne & Hdec & Hin & Hm & Hd)]; [by left|].
    right. exists d. split; [done|]. split; [done|]. right. by exists ps, part.
  - destruct (Gmail.body_data payload) as [d|] eqn:Hd; simpl; [|by left].
    destruct (String.eqb_spec d "") as [->|Hne]; simpl; [by left|].
    right. exists d. split; [done|]. split; [done|]. by left.
Qed.

(** ** Labels *)

Lemma find_label_first (pre suf : list Gmail.Obj) (label : Gmail.Obj) (name : string) :
  Forall (fun l => l !! "name" <> Some name) pre ->
  label !! "name" = Some name ->
  Gmail.find_label (pre ++ label :: suf) name = Some label.
Proof.
  intros Hpre Hl. induction Hpre as [|l pre Hne _ IH]; simpl.
  - by rewrite decide_True.
  - by rewrite decide_False.
Qed.

Lemma find_label_none (labels : list Gmail.Obj) (name : string) :
  Forall (fun l => l !! "name" <> Some name) labels ->
  Gmail.find_label labels name = None.
Proof.
  intros Hall. induction Hall as [|l labels Hne _ IH]; simpl; [done|].
  by rewrite decide_False.
Qed.

Lemma ensure_label_run (w : Gmail.World) (user_id name : string) (σ : Gmail.State) :
  Gmail._ensure_label w user_id name σ =
    let r := Gmail.labels_list w (Gmail.events σ) user_id in
    let σ1 := Gmail.mkGState (Gmail.files σ)
                (Gmail.events σ ++ [Gmail.LabelsList user_id r]) in
    match r with
    | Raise e => (Raise e, σ1)
    | Ok resp =>
        match Gmail.find_label (default [] resp) name with
        | Some label => Gmail.subscript label "id" σ1
        | None =>
            let lbody := Gmail.mkLabelBody name "labelShow" "show" in
            let r2 := Gmail.labels_create w (Gmail.events σ1) user_id lbody in
            let σ2 := Gmail.mkGState (Gmail.files σ)
                        (Gmail.events σ1 ++ [Gmail.LabelsCreate user_id lbody r2]) in
            match r2 with
            | Raise e => (Raise e, σ2)
            | Ok created => Gmail.subscript created "id" σ2
            end
        end
    end.
Proof.
  unfold Gmail._ensure_label, mbind, Gmail.G_bind, Gmail.call. simpl.
  destruct (Gmail.labels_list w (Gmail.events σ) user_id) as [resp|e]; [|done].
  destruct (Gmail.find_label (default [] resp) name); [done|].
  unfold mbind, Gmail.G_bind. simpl.
  by destruct (Gmail.labels_create w _ user_id _).
Qed.

(** X11. When the listing holds a label of exactly that name,
    [_ensure_label] answers with the id of the first such label and creates
    nothing: the listing is its only call. *)
Theorem ensure_label_existing (w : Gmail.World) (user_id name : string)
    (σ : Gmail.State) (pre suf : list Gmail.Obj) (label : Gmail.Obj) (i : string) :
  Gmail.labels_list w (Gmail.events σ) user_id = Ok (Some (pre ++ label :: suf)) ->
  Forall (fun l => l !! "name" <> Some name) pre ->
  label !! "name" = Some name ->
  label !! "id" = Some i ->
  Gmail._ensure_label w user_id name σ
  = (Ok i,
     Gmail.mkGState (Gmail.files σ)
       (Gmail.events σ
        ++ [Gmail.LabelsList user_id (Ok (Some (pre ++ label :: suf)))])).
Proof.
  intros Hlist Hpre Hname Hid. rewrite ensure_label_run, Hlist. cbv beta iota zeta.
  change (default [] (Some (pre ++ label :: suf))) with (pre ++ label :: suf).
  rewrite (find_label_first pre suf label name Hpre Hname). unfold Gmail.subscript.
  by rewrite Hid.
Qed.

Lemma ensure_label_existing_witness :
  Gmail._ensure_label Gmail.sample_world "me" "Billing" Gmail.sample_state
  = (Ok "Label_1",
     Gmail.mkGState (Gmail.files Gmail.sample_state)
       (Gmail.events Gmail.sample_state
        ++ [Gmail.LabelsList "me"
              (Ok (Some ([] ++ {[ "id" := "Label_1"; "name" := "Billing" ]} :: [])))])).
Proof.
  apply ensure_label_existing.
  - reflexivity.
  - constructor.
  - reflexivity.
  - reflexivity.
Defined.

(** X12. When no listed label has exactly that name (letter case counts),
    or the listing has no "labels" at all, [_ensure_label] creates the
    label, once, shown in the label list and in the message list, and
    answers with the "id" of what was created; a failure to create is
    passed on, and a created label without "id" is a [KeyError]. *)
Theorem ensure_label_creates (w : Gmail.World) (user_id name : string)
    (σ : Gmail.State) (resp : option (list Gmail.Obj)) :
  Gmail.labels_list w (Gmail.events σ) user_id = Ok resp ->
  Forall (fun l => l !! "name" <> Some name) (default [] resp) ->
  exists r,
    r = Gmail.labels_create w
          (Gmail.events σ ++ [Gmail.LabelsList user_id (Ok resp)]) user_id
          (Gmail.mkLabelBody name "labelShow" "show")
    /\ snd (Gmail._ensure_label w user_id name σ)
       = Gmail.mkGState (Gmail.files σ)
           ((Gmail.events σ ++ [Gmail.LabelsList user_id (Ok resp)])
            ++ [Gmail.LabelsCreate user_id
                  (Gmail.mkLabelBody name "labelShow" "show") r])
    /\ fst (Gmail._ensure_label w user_id name σ)
       = match r with
         | Raise e => Raise e
         | Ok created =>
             match created !! "id" with
             | Some i => Ok i
             | None => Raise (Exception "KeyError('id')")
             end
         end.
Proof.
  intros Hlist Hnone. rewrite ensure_label_run, Hlist. cbv beta iota zeta.
  rewrite (find_label_none _ _ Hnone). simpl Gmail.events.
  eexists. split; [reflexivity|].
  destruct (Gmail.labels_create w _ user_id _) as [created|e]; [|done].
  unfold Gmail.subscript. by destruct (created !! "id").
Qed.

Lemma ensure_label_creates_witness :
  exists r,
    r = Gmail.labels_create Gmail.sample_world
          (Gmail.events Gmail.sample_state
           ++ [Gmail.LabelsList "me"
                 (Ok (Some [{[ "id" := "Label_1"; "name" := "Billing" ]}]))])
          "me" (Gmail.mkLabelBody "billing" "labelShow" "show")
    /\ snd (Gmail._ensure_label Gmail.sample_world "me" "billing" Gmail.sample_state)
       = Gmail.mkGState (Gmail.files Gmail.sample_state)
           ((Gmail.events Gmail.sample_state
             ++ [Gmail.LabelsList "me"
                   (Ok (Some [{[ "id" := "Label_1"; "name" := "Billing" ]}]))])
            ++ [Gmail.LabelsCreate "me"
                  (Gmail.mkLabelBody "billing" "labelShow" "show") r])
    /\ fst (Gmail._ensure_label Gmail.sample_world "me" "billing" Gmail.sample_state)
       = match r with
         | Raise e => Raise e
         | Ok created =>
             match created !! "id" with
             | Some i => Ok i
             | None => Raise (Exception "KeyError('id')")
             end
         end.
Proof.
  apply ensure_label_creates.
  - reflexivity.
  - constructor; [|constructor]. vm_compute. discriminate.
Defined.

(** ** Authentication *)

Lemma load_token_run (w : Gmail.World) (σ : Gmail.State) :
  Gmail.load_token w σ
  = match Gmail.files σ !! Gmail.TOKEN_FILE w with
    | None => (Ok None, σ)
    | Some content =>
        match Gmail.from_authorized_user_file w (Gmail.TOKEN_FILE w) content with
        | Gmail.Loaded c => (Ok (Some c), σ)
        | Gmail.LoadValueError => (Ok None, σ)
        | Gmail.LoadRaises e => (Raise e, σ)
        end
    end.
Proof.
  unfold Gmail.load_token, Gmail.path_exists, mbind, Gmail.G_bind.
  destruct (Gmail.files σ !! Gmail.TOKEN_FILE w) as [content|] eqn:E.
  - rewrite bool_decide_true by by eexists. cbv beta iota. by rewrite E.
  - rewrite bool_decide_false by by intros [? ?]. done.
Qed.

Lemma oauth_flow_run (w : Gmail.World) (σ : Gmail.State) :
  Gmail.oauth_flow w σ
  = match Gmail.files σ !! Gmail.CREDENTIALS_FILE w with
    | None => (Raise (Gmail.credentials_missing w), σ)
    | Some content =>
        (Gmail.run_local_server w (Gmail.events σ) (Gmail.CREDENTIALS_FILE w) content,
         Gmail.mkGState (Gmail.files σ)
           (Gmail.events σ
            ++ [Gmail.OAuthFlow
                  (Gmail.run_local_server w (Gmail.events σ)
                     (Gmail.CREDENTIALS_FILE w) content)]))
    end.
Proof.
  unfold Gmail.oauth_flow, Gmail.path_exists, Gmail.call, Gmail.raise, mbind,
    Gmail.G_bind.
  destruct (Gmail.files σ !! Gmail.CREDENTIALS_FILE w) as [content|] eqn:E.
  - rewrite bool_decide_true by by eexists. cbv beta iota.
    change (negb true) with false. cbv beta iota. by rewrite E.
  - rewrite bool_decide_false by by intros [? ?]. done.
Qed.

Lemma get_service_unfold (w : Gmail.World) (σ : Gmail.State) :
  Gmail._get_gmail_service w σ
  = match Gmail.load_token w σ with
    | (Raise e, σ0) => (Raise e, σ0)
    | (Ok creds, σ0) =>
        match (match creds with
               | Some c => if negb (Gmail.valid c) then Gmail.renew w creds
                           else mret c
               | None => Gmail.renew w creds
               end) σ0 with
        | (Raise e, σ1) => (Raise e, σ1)
        | (Ok c, σ1) =>
            (match Gmail.build w (Gmail.events σ1) c with
             | Ok _ => Ok c
             | Raise e => Raise e
             end,
             Gmail.mkGState (Gmail.files σ1)
               (Gmail.events σ1 ++ [Gmail.Build c (Gmail.build w (Gmail.events σ1) c)]))
        end
    end.
Proof.
  unfold Gmail._get_gmail_service, mbind, Gmail.G_bind.
  destruct (Gmail.load_token w σ) as [[creds|e] σ0]; [|done].
  destruct creds as [c0|]; [destruct (Gmail.valid c0)|]; cbn [negb]; cbv beta iota.
  - unfold mret, Gmail.G_ret, Gmail.call. simpl.
    destruct (Gmail.build w (Gmail.events σ0) c0); reflexivity.
  - destruct (Gmail.renew w (Some c0) σ0) as [[c|e] σ1]; [|done].
    unfold Gmail.call. simpl.
    destruct (Gmail.build w (Gmail.events σ1) c); reflexivity.
  - destruct (Gmail.renew w None σ0) as [[c|e] σ1]; [|done].
    unfold Gmail.call. simpl.
    destruct (Gmail.build w (Gmail.events σ1) c); reflexivity.
Qed.

Lemma renew_unfold (w : Gmail.World) (creds : option Gmail.Credentials)
    (σ : Gmail.State) :
  Gmail.renew w creds σ
  = match (match creds with
           | Some c =>
               if Gmail.can_refresh creds
               then Gmail.call (fun evs => Gmail.refresh w evs c) (Gmail.Refresh c)
               else Gmail.oauth_flow w
           | None => Gmail.oauth_flow w
           end) σ with
    | (Raise e, σ1) => (Raise e, σ1)
    | (Ok c', σ1) =>
        match Gmail.save_token w c' σ1 with
        | (Raise e, σ2) => (Raise e, σ2)
        | (Ok _, σ2) => (Ok c', σ2)
        end
    end.
Proof.
  unfold Gmail.renew, mbind, Gmail.G_bind.
  destruct creds as [c0|]; [destruct (Gmail.can_refresh (Some c0))|].
  - destruct (Gmail.call _ _ σ) as [[c'|e] σ1]; [|done].
    by destruct (Gmail.save_token w c' σ1) as [[[]|e] σ2].
  - destruct (Gmail.oauth_flow w σ) as [[c'|e] σ1]; [|done].
    by destruct (Gmail.save_token w c' σ1) as [[[]|e] σ2].
  - destruct (Gmail.oauth_flow w σ) as [[c'|e] σ1]; [|done].
    by destruct (Gmail.save_token w c' σ1) as [[[]|e] σ2].
Qed.

(** X13. With a token file that loads to valid credentials,
    [_get_gmail_service] builds the client from them and does nothing else:
    no refresh, no OAuth flow, no file written. *)
Theorem get_service_valid_token (w : Gmail.World) (σ : Gmail.State)
    (content : string) (c : Gmail.Credentials) :
  Gmail.files σ !! Gmail.TOKEN_FILE w = Some content ->
  Gmail.from_authorized_user_file w (Gmail.TOKEN_FILE w) content = Gmail.Loaded c ->
  Gmail.valid c = true ->
  Gmail._get_gmail_service w σ
  = (match Gmail.build w (Gmail.events σ) c with
     | Ok _ => Ok c
     | Raise e => Raise e
     end,
     Gmail.mkGState (Gmail.files σ)
       (Gmail.events σ ++ [Gmail.Build c (Gmail.build w (Gmail.events σ) c)])).
Proof.
  intros Hfile Hload Hvalid.
  rewrite get_service_unfold, load_token_run, Hfile, Hload. cbv beta iota.
  rewrite Hvalid. done.
Qed.

Lemma get_service_valid_token_witness :
  Gmail._get_gmail_service Gmail.sample_world Gmail.sample_state
  = (match Gmail.build Gmail.sample_world (Gmail.events Gmail.sample_state)
             Gmail.sample_creds with
     | Ok _ => Ok Gmail.sample_creds
     | Raise e => Raise e
     end,
     Gmail.mkGState (Gmail.files Gmail.sample_state)
       (Gmail.events Gmail.sample_state
        ++ [Gmail.Build Gmail.sample_creds
              (Gmail.build Gmail.sample_world (Gmail.events Gmail.sample_state)
                 Gmail.sample_creds)])).
Proof.
  apply (get_service_valid_token Gmail.sample_world Gmail.sample_state "{json}").
  - reflexivity.
  - reflexivity.
  - reflexivity.
Defined.

(** X14. Without a credentials file, [_get_gmail_service] raises the
    [RuntimeError] that names the file, and touches nothing, whenever the
    stored token cannot be used or refreshed: the token file is missing, or
    loading it gave a [ValueError], or it holds credentials that are not
    valid and are either not expired or without a refresh token. *)
Theorem get_service_credentials_missing (w : Gmail.World) (σ : Gmail.State) :
  Gmail.files σ !! Gmail.CREDENTIALS_FILE w = None ->
  (Gmail.files σ !! Gmail.TOKEN_FILE w = None
   \/ (exists content,
         Gmail.files σ !! Gmail.TOKEN_FILE w = Some content
         /\ (Gmail.from_authorized_user_file w (Gmail.TOKEN_FILE w) content
               = Gmail.LoadValueError
             \/ exists c,
                  Gmail.from_authorized_user_file w (Gmail.TOKEN_FILE w) content
                    = Gmail.Loaded c
                  /\ Gmail.valid c = false
                  /\ (Gmail.expired c = false
                      \/ Gmail.refresh_token c = None
                      \/ Gmail.refresh_token c = Some "")))) ->
  Gmail._get_gmail_service w σ = (Raise (Gmail.credentials_missing w), σ).
Proof.
  intros Hcred Htoken.
  assert (Hflow : Gmail.oauth_flow w σ = (Raise (Gmail.credentials_missing w), σ)).
  { by rewrite oauth_flow_run, Hcred. }
  rewrite get_service_unfold, load_token_run.
  destruct Htoken as [-> | (content & -> & Hload)].
  - cbv beta iota. by rewrite renew_unfold, Hflow.
  - destruct Hload as [-> | (c & -> & Hinv & Hnr)]; cbv beta iota.
    + by rewrite renew_unfold, Hflow.
    + rewrite Hinv. cbn [negb]. cbv iota. rewrite renew_unfold.
      assert (Hcr : Gmail.can_refresh (Some c) = false).
      { unfold Gmail.can_refresh.
        destruct Hnr as [-> | [-> | ->]]; [done | apply andb_false_r..]. }
      by rewrite Hcr, Hflow.
Qed.

Lemma get_service_credentials_missing_witness :
  Gmail._get_gmail_service Gmail.sample_world (Gmail.mkGState ∅ [])
  = (Raise (Gmail.credentials_missing Gmail.sample_world), Gmail.mkGState ∅ []).
Proof.
  apply get_service_credentials_missing.
  - reflexivity.
  - left. reflexivity.
Defined.

Lemma save_token_run (w : Gmail.World) (c : Gmail.Credentials) (σ : Gmail.State) :
  Gmail.save_token w c σ
  = match Gmail.write_token w (Gmail.events σ) (Gmail.TOKEN_FILE w) (Gmail.to_json c) with
    | Gmail.Written =>
        (Ok tt,
         Gmail.mkGState (<[Gmail.TOKEN_FILE w := Gmail.to_json c]> (Gmail.files σ))
           (Gmail.events σ
            ++ [Gmail.WriteToken (Gmail.TOKEN_FILE w) (Gmail.to_json c) Gmail.Written]))
    | Gmail.NotOpened e =>
        (Raise e,
         Gmail.mkGState (Gmail.files σ)
           (Gmail.events σ
            ++ [Gmail.WriteToken (Gmail.TOKEN_FILE w) (Gmail.to_json c)
                  (Gmail.NotOpened e)]))
    | Gmail.BrokenOff e partial =>
        (Raise e,
         Gmail.mkGState (<[Gmail.TOKEN_FILE w := partial]> (Gmail.files σ))
           (Gmail.events σ
            ++ [Gmail.WriteToken (Gmail.TOKEN_FILE w) (Gmail.to_json c)
                  (Gmail.BrokenOff e partial)]))
    end.
Proof.
  unfold Gmail.save_token. cbv zeta.
  by destruct (Gmail.write_token w (Gmail.events σ) _ _).
Qed.

(** The step that renews the credentials: what it adds to the history and
    what it does to the files, by cases. *)
Lemma renew_cases (w : Gmail.World) (creds : option Gmail.Credentials)
    (σ : Gmail.State) :
  (Gmail.renew w creds σ = (Raise (Gmail.credentials_missing w), σ))
  \/ exists ev,
       Gmail.is_renewal ev = true
       /\ ((exists e,
              Gmail.renew w creds σ
              = (Raise e, Gmail.mkGState (Gmail.files σ) (Gmail.events σ ++ [ev])))
           \/ exists c' wr,
                Gmail.events (snd (Gmail.renew w creds σ))
                = Gmail.events σ
                  ++ [ev; Gmail.WriteToken (Gmail.TOKEN_FILE w) (Gmail.to_json c') wr]
                /\ match wr with
                   | Gmail.Written =>
                       fst (Gmail.renew w creds σ) = Ok c'
                       /\ Gmail.files (snd (Gmail.renew w creds σ))
                          = <[Gmail.TOKEN_FILE w := Gmail.to_json c']> (Gmail.files σ)
                   | Gmail.NotOpened e =>
                       fst (Gmail.renew w creds σ) = Raise e
                       /\ Gmail.files (snd (Gmail.renew w creds σ)) = Gmail.files σ
                   | Gmail.BrokenOff e partial =>
                       fst (Gmail.renew w creds σ) = Raise e
                       /\ Gmail.files (snd (Gmail.renew w creds σ))
                          = <[Gmail.TOKEN_FILE w := partial]> (Gmail.files σ)
                   end).
Proof.
  rewrite renew_unfold.
  assert (Hstep :
    (match creds with
     | Some c =>
         if Gmail.can_refresh creds
         then Gmail.call (fun evs => Gmail.refresh w evs c) (Gmail.Refresh c)
         else Gmail.oauth_flow w
     | None => Gmail.oauth_flow w
     end) σ = (Raise (Gmail.credentials_missing w), σ)
    \/ exists ev r,
         Gmail.is_renewal ev = true
         /\ (match creds with
             | Some c =>
                 if Gmail.can_refresh creds
                 then Gmail.call (fun evs => Gmail.refresh w evs c) (Gmail.Refresh c)
                 else Gmail.oauth_flow w
             | None => Gmail.oauth_flow w
             end) σ = (r, Gmail.mkGState (Gmail.files σ) (Gmail.events σ ++ [ev]))).
  { assert (Hflow : Gmail.oauth_flow w σ = (Raise (Gmail.credentials_missing w), σ)
                    \/ exists ev r,
                         Gmail.is_renewal ev = true
                         /\ Gmail.oauth_flow w σ
                            = (r, Gmail.mkGState (Gmail.files σ) (Gmail.events σ ++ [ev]))).
    { rewrite oauth_flow_run.
      destruct (Gmail.files σ !! Gmail.CREDENTIALS_FILE w); [right | by left].
      by eexists (Gmail.OAuthFlow _), _. }
    destruct creds as [c0|]; [destruct (Gmail.can_refresh (Some c0))|]; try exact Hflow.
    right. by eexists (Gmail.Refresh c0 _), _. }
  destruct Hstep as [-> | (ev & r & Hev & ->)]; [by left|].
  right. exists ev. split; [exact Hev|].
  destruct r as [c'|e]; [|left; by exists e].
  right. rewrite save_token_run. simpl Gmail.events. simpl Gmail.files.
  destruct (Gmail.write_token w _ _ _) as [|e|e partial] eqn:Hw.
  - exists c', Gmail.Written. simpl. by rewrite <- app_assoc.
  - exists c', (Gmail.NotOpened e). simpl. by rewrite <- app_assoc.
  - exists c', (Gmail.BrokenOff e partial). simpl. by rewrite <- app_assoc.
Qed.




(** X16. One call of [_get_gmail_service] does, at most and in this order:
    one renewal of the credentials, by a refresh or by the OAuth flow, never
    both (a refresh that fails is not followed by the flow); one write of
    the token file, only after a renewal that succeeded; and one build of
    the client, which after a renewal happens only if the token was
    written.  It makes no call to the mailbox. *)
Theorem get_service_events (w : Gmail.World) (σ : Gmail.State) :
  exists new,
    Gmail.events (snd (Gmail._get_gmail_service w σ)) = Gmail.events σ ++ new
    /\ (new = []
        \/ (exists c r, new = [Gmail.Build c r])
        \/ exists ev,
             Gmail.is_renewal ev = true
             /\ (new = [ev]
                 \/ exists c,
                      (exists e,
                         new = [ev; Gmail.WriteToken (Gmail.TOKEN_FILE w)
                                      (Gmail.to_json c) (Gmail.NotOpened e)])
                      \/ (exists e partial,
                            new = [ev; Gmail.WriteToken (Gmail.TOKEN_FILE w)
                                         (Gmail.to_json c) (Gmail.BrokenOff e partial)])
                      \/ (exists r,
                            new = [ev; Gmail.WriteToken (Gmail.TOKEN_FILE w)
                                         (Gmail.to_json c) Gmail.Written;
                                   Gmail.Build c r]))).
Proof.
  rewrite get_service_unfold, load_token_run.
  assert (Hrenew : forall creds,
    exists new,
      Gmail.events (snd
        (match Gmail.renew w creds σ with
         | (Raise e, σ1) => (Raise e, σ1)
         | (Ok c0, σ1) =>
             (match Gmail.build w (Gmail.events σ1) c0 with
              | Ok _ => Ok c0
              | Raise e => Raise e
              end,
              Gmail.mkGState (Gmail.files σ1)
                (Gmail.events σ1 ++ [Gmail.Build c0 (Gmail.build w (Gmail.events σ1) c0)]))
         end)) = Gmail.events σ ++ new
      /\ (new = []
          \/ (exists c r, new = [Gmail.Build c r])
          \/ exists ev,
               Gmail.is_renewal ev = true
               /\ (new = [ev]
                   \/ exists c,
                        (exists e,
                           new = [ev; Gmail.WriteToken (Gmail.TOKEN_FILE w)
                                        (Gmail.to_json c) (Gmail.NotOpened e)])
                        \/ (exists e partial,
                              new = [ev; Gmail.WriteToken (Gmail.TOKEN_FILE w)
                                           (Gmail.to_json c) (Gmail.BrokenOff e partial)])
                        \/ (exists r,
                              new = [ev; Gmail.WriteToken (Gmail.TOKEN_FILE w)
                                           (Gmail.to_json c) Gmail.Written;
                                     Gmail.Build c r])))).
  { intros creds.
    destruct (renew_cases w creds σ)
      as [H | (ev & Hev & [(e & H) | (c' & wr & Hevs & Hwr)])].
    - rewrite H. exists []. split; [by rewrite app_nil_r | by left].
    - rewrite H. exists [ev]. split; [done|]. right. right. exists ev. split; [done | by left].
    - destruct (Gmail.renew w creds σ) as [[c0|e] σ1] eqn:Hr; simpl in Hevs, Hwr.
      + destruct wr as [|e|e partial]; destruct Hwr as [[= <-] Hfiles].
        eexists. simpl. rewrite Hevs, <- app_assoc. split; [reflexivity|].
        right. right. exists ev. split; [done|]. right. exists c0. right. right.
        by eexists.
      + eexists. simpl. split; [exact Hevs|].
        right. right. exists ev. split; [done|]. right. exists c'.
        destruct wr as [|e'|e' partial]; destruct Hwr as [[=] _].
        * left. by exists e'.
        * right. left. by exists e', partial. }
  destruct (Gmail.files σ !! Gmail.TOKEN_FILE w) as [content|]; [|apply Hrenew].
  destruct (Gmail.from_authorized_user_file w _ content) as [c0| |e];
    [| apply Hrenew | exists []; split; [by rewrite app_nil_r | by left]].
  destruct (Gmail.valid c0); cbn [negb]; cbv beta iota; [|apply Hrenew].
  unfold mret, Gmail.G_ret. eexists. split; [reflexivity|]. right. left. by eexists _, _.
Qed.

(** ** What the tools do to the mailbox *)

Lemma count_events_app (p : Gmail.Event -> bool) (l1 l2 : list Gmail.Event) :
  Gmail.count_events p (l1 ++ l2) = Gmail.count_events p l1 + Gmail.count_events p l2.
Proof. induction l1 as [|ev l1 IH]; simpl; [done | rewrite IH; lia]. Qed.

Lemma within_nil (P : Gmail.Event -> Prop) (p : Gmail.Event -> bool) (n : nat) : Gmail.within P p n [].
Proof. split; [constructor | simpl; lia]. Qed.

Lemma within_app (P : Gmail.Event -> Prop) (p : Gmail.Event -> bool) (n1 n2 : nat)
    (l1 l2 : list Gmail.Event) :
  Gmail.within P p n1 l1 -> Gmail.within P p n2 l2 ->
  Gmail.within P p (n1 + n2) (l1 ++ l2).
Proof.
  intros [H1 C1] [H2 C2]. split; [by apply Forall_app | rewrite count_events_app; lia].
Qed.

Lemma within_mono (P : Gmail.Event -> Prop) (p : Gmail.Event -> bool) (n n' : nat)
    (l : list Gmail.Event) : n <= n' -> Gmail.within P p n l -> Gmail.within P p n' l.
Proof. intros Hn [H C]. split; [done | lia]. Qed.

Lemma emits_quiet {A} (P : Gmail.Event -> Prop) (p : Gmail.Event -> bool) (n : nat)
    (m : Gmail.G A) :
  (forall σ, snd (m σ) = σ) -> Gmail.emits (Gmail.within P p n) m.
Proof.
  intros Hm σ. exists []. rewrite Hm, app_nil_r. split; [done | apply within_nil].
Qed.

Lemma emits_ret {A} (P : Gmail.Event -> Prop) (p : Gmail.Event -> bool) (n : nat) (a : A) :
  Gmail.emits (Gmail.within P p n) (mret a).
Proof. by apply emits_quiet. Qed.

Lemma emits_raise {A} (P : Gmail.Event -> Prop) (p : Gmail.Event -> bool) (n : nat)
    (e : PyException) :
  Gmail.emits (Gmail.within P p n) (@Gmail.raise A e).
Proof. by apply emits_quiet. Qed.

Lemma emits_lift {A} (P : Gmail.Event -> Prop) (p : Gmail.Event -> bool) (n : nat)
    (r : Outcome A) :
  Gmail.emits (Gmail.within P p n) (Gmail.lift r).
Proof. by apply emits_quiet. Qed.

Lemma emits_subscript (P : Gmail.Event -> Prop) (p : Gmail.Event -> bool) (n : nat)
    (obj : Gmail.Obj) (key : string) :
  Gmail.emits (Gmail.within P p n) (Gmail.subscript obj key).
Proof. apply emits_quiet. intros σ. unfold Gmail.subscript. by destruct (obj !! key). Qed.

Lemma emits_call {A} (P : Gmail.Event -> Prop) (p : Gmail.Event -> bool) (n : nat)
    (ask : list Gmail.Event -> Outcome A) (record : Outcome A -> Gmail.Event) :
  (forall r, P (record r)) ->
  (forall r, (if p (record r) then 1 else 0) <= n) ->
  Gmail.emits (Gmail.within P p n) (Gmail.call ask record).
Proof.
  intros HP Hp σ. eexists. split; [reflexivity|]. split.
  - constructor; [apply HP | constructor].
  - simpl. specialize (Hp (ask (Gmail.events σ))). lia.
Qed.

Lemma emits_bind {A B} (P : Gmail.Event -> Prop) (p : Gmail.Event -> bool) (n1 n2 : nat)
    (m : Gmail.G A) (k : A -> Gmail.G B) :
  Gmail.emits (Gmail.within P p n1) m ->
  (forall a, Gmail.emits (Gmail.within P p n2) (k a)) ->
  Gmail.emits (Gmail.within P p (n1 + n2)) (m ≫= k).
Proof.
  intros Hm Hk σ. unfold mbind, Gmail.G_bind.
  destruct (Hm σ) as (new1 & E1 & Q1).
  destruct (m σ) as [[a|e] σ1]; simpl in E1.
  - destruct (Hk a σ1) as (new2 & E2 & Q2). exists (new1 ++ new2).
    rewrite E2, E1, app_assoc. split; [done | by apply within_app].
  - exists new1. split; [done|]. eapply within_mono; [|exact Q1]. lia.
Qed.

Lemma auth_of_renewal (ev : Gmail.Event) :
  Gmail.is_renewal ev = true -> Gmail.is_auth ev = true.
Proof. by destruct ev. Qed.

(** Getting the service adds only events of authentication. *)
Lemma emits_get_service (w : Gmail.World) (P : Gmail.Event -> Prop) (p : Gmail.Event -> bool)
    (n : nat) :
  (forall ev, Gmail.is_auth ev = true -> P ev) ->
  (forall ev, Gmail.is_auth ev = true -> p ev = false) ->
  Gmail.emits (Gmail.within P p n) (Gmail._get_gmail_service w).
Proof.
  intros HP Hp σ. destruct (get_service_events w σ) as (new & Hevs & Hshape).
  exists new. split; [exact Hevs|].
  assert (Hall : Forall (fun ev => Gmail.is_auth ev = true) new).
  { destruct Hshape as [-> | [(c & r & ->) | (ev & Hev & Hs)]].
    - constructor.
    - by repeat constructor.
    - apply auth_of_renewal in Hev.
      destruct Hs as [-> | (c & [(e & ->) | [(e & partial & ->) | (r & ->)]])];
        by repeat constructor. }
  clear Hshape Hevs. induction Hall as [|ev new Hev _ IH]; [apply within_nil|].
  destruct IH as [IHP IHc]. split; [constructor; [by apply HP | done]|].
  simpl. rewrite (Hp ev Hev). lia.
Qed.

Lemma emits_bind_le {A B} (P : Gmail.Event -> Prop) (p : Gmail.Event -> bool)
    (n1 n2 n : nat) (m : Gmail.G A) (k : A -> Gmail.G B) :
  n1 + n2 <= n ->
  Gmail.emits (Gmail.within P p n1) m ->
  (forall a, Gmail.emits (Gmail.within P p n2) (k a)) ->
  Gmail.emits (Gmail.within P p n) (m ≫= k).
Proof.
  intros Hn Hm Hk σ. destruct (emits_bind P p n1 n2 m k Hm Hk σ) as (new & E & Q).
  exists new. split; [done|]. by eapply within_mono.
Qed.

Lemma emits_ensure_label (w : Gmail.World) (P : Gmail.Event -> Prop)
    (p : Gmail.Event -> bool) (n : nat) (user_id name : string) :
  (forall r, P (Gmail.LabelsList user_id r)) ->
  (forall r, p (Gmail.LabelsList user_id r) = false) ->
  (forall r, P (Gmail.LabelsCreate user_id (Gmail.mkLabelBody name "labelShow" "show") r)) ->
  (forall r, (if p (Gmail.LabelsCreate user_id
                      (Gmail.mkLabelBody name "labelShow" "show") r)
              then 1 else 0) <= n) ->
  Gmail.emits (Gmail.within P p n) (Gmail._ensure_label w user_id name).
Proof.
  intros HP1 Hp1 HP2 Hp2. unfold Gmail._ensure_label.
  apply (emits_bind_le P p 0 n); [lia | |].
  - apply emits_call; [done|]. intros r. by rewrite Hp1.
  - intros resp. destruct (Gmail.find_label _ _); [apply emits_subscript|].
    cbv zeta. apply (emits_bind_le P p n 0); [lia | by apply emits_call |].
    intros created. apply emits_subscript.
Qed.

Lemma emits_fetch_each (w : Gmail.World) (P : Gmail.Event -> Prop)
    (p : Gmail.Event -> bool) (user_id : string) (messages : list Gmail.Obj)
    (acc : list Gmail.Email) :
  (forall msg_id r, P (Gmail.MessagesGet user_id msg_id "full" None r)) ->
  (forall msg_id r, p (Gmail.MessagesGet user_id msg_id "full" None r) = false) ->
  Gmail.emits (Gmail.within P p 0) (Gmail.fetch_each w user_id messages acc).
Proof.
  intros HP Hp. revert acc. induction messages as [|meta rest IH]; intros acc; simpl.
  - apply emits_ret.
  - apply (emits_bind_le P p 0 0); [lia | apply emits_subscript |]. intros msg_id.
    apply (emits_bind_le P p 0 0); [lia | |].
    + apply emits_call; [done|]. intros r. by rewrite Hp.
    + intros msg. cbv zeta.
      apply (emits_bind_le P p 0 0); [lia | apply emits_lift |]. intros body.
      apply IH.
Qed.

(** X17. [fetch_unread_emails] only reads the mailbox: besides
    authenticating, all it does is list messages and get messages.  It
    creates no label, modifies no message and sends nothing, whatever the
    services answer. *)
Theorem fetch_unread_emails_reads_only (w : Gmail.World) (limit : Z)
    (σ : Gmail.State) :
  exists new,
    Gmail.events (snd (Gmail.fetch_unread_emails w limit σ)) = Gmail.events σ ++ new
    /\ Forall (fun ev => Gmail.is_auth ev || Gmail.is_read ev = true) new.
Proof.
  assert (H : Gmail.emits
                (Gmail.within (fun ev => Gmail.is_auth ev || Gmail.is_read ev = true)
                              (fun _ => false) 0)
                (Gmail.fetch_unread_emails w limit)).
  { unfold Gmail.fetch_unread_emails.
    apply (emits_bind_le _ _ 0 0); [lia | |].
    - apply emits_get_service; [by intros ev -> | done].
    - intros service. cbv zeta.
      apply (emits_bind_le _ _ 0 0); [lia | by apply emits_call |].
      intros response. by apply emits_fetch_each. }
  destruct (H σ) as (new & E & Q & _). by exists new.
Qed.

(** X18. [apply_label] never removes a label and never sends or reads a
    message: besides authenticating and listing the labels, it creates at
    most one label, of the name asked for, and modifies at most one message,
    the one asked for, adding a single label id with an empty list of labels
    to remove. *)
Theorem apply_label_only_adds (w : Gmail.World) (email_id label : string)
    (σ : Gmail.State) :
  exists new,
    Gmail.events (snd (Gmail.apply_label w email_id label σ)) = Gmail.events σ ++ new
    /\ Forall (Gmail.label_only email_id label) new
    /\ Gmail.count_events Gmail.is_label_create new <= 1
    /\ Gmail.count_events Gmail.is_modify new <= 1.
Proof.
  assert (Hauth : forall ev, Gmail.is_auth ev = true -> Gmail.label_only email_id label ev).
  { by intros []. }
  assert (Hcreate : Gmail.emits
            (Gmail.within (Gmail.label_only email_id label) Gmail.is_label_create 1)
            (Gmail.apply_label w email_id label)).
  { unfold Gmail.apply_label.
    apply (emits_bind_le _ _ 0 1); [lia | |].
    - apply emits_get_service; [exact Hauth | by intros []].
    - intros service. cbv zeta.
      apply (emits_bind_le _ _ 1 0); [lia | |].
      + by apply emits_ensure_label.
      + intros label_id.
        apply (emits_bind_le _ _ 0 0); [lia | |]; [|intros updated; apply emits_ret].
        apply emits_call; [|done]. intros r. simpl. repeat split. by exists label_id. }
  assert (Hmodify : Gmail.emits
            (Gmail.within (Gmail.label_only email_id label) Gmail.is_modify 1)
            (Gmail.apply_label w email_id label)).
  { unfold Gmail.apply_label.
    apply (emits_bind_le _ _ 0 1); [lia | |].
    - apply emits_get_service; [exact Hauth | by intros []].
    - intros service. cbv zeta.
      apply (emits_bind_le _ _ 0 1); [lia | |].
      + by apply emits_ensure_label.
      + intros label_id.
        apply (emits_bind_le _ _ 1 0); [lia | |]; [|intros updated; apply emits_ret].
        apply emits_call; [|done]. intros r. simpl. repeat split. by exists label_id. }
  destruct (Hcreate σ) as (new & E & Q & C1).
  destruct (Hmodify σ) as (new' & E' & _ & C2).
  rewrite E in E'. apply app_inv_head in E'. subst new'.
  by exists new.
Qed.

Example apply_label_sample :
  Gmail.events (snd (Gmail.apply_label Gmail.sample_world "m1" "billing"
                       Gmail.sample_state))
  = [Gmail.Build Gmail.sample_creds (Ok tt);
     Gmail.LabelsList "me" (Ok (Some [{[ "id" := "Label_1"; "name" := "Billing" ]}]));
     Gmail.LabelsCreate "me" (Gmail.mkLabelBody "billing" "labelShow" "show")
       (Ok {[ "id" := "Label_2"; "name" := "billing" ]});
     Gmail.MessagesModify "me" "m1" (Gmail.mkModifyBody ["Label_2"] [])
       (Ok (Gmail.mkMessage (Some "m1") None None (Some ["INBOX"; "Label_1"]) None))].
Proof. reflexivity. Qed.

(** X19. [send_reply] never touches labels and never lists the mailbox:
    besides authenticating, it reads the metadata of the one message it
    replies to, and sends at most one message. *)
Theorem send_reply_sends_once (w : Gmail.World) (email_id reply_text : string)
    (σ : Gmail.State) :
  exists new,
    Gmail.events (snd (Gmail.send_reply w email_id reply_text σ)) = Gmail.events σ ++ new
    /\ Forall (Gmail.reply_only email_id) new
    /\ Gmail.count_events Gmail.is_send new <= 1.
Proof.
  assert (H : Gmail.emits (Gmail.within (Gmail.reply_only email_id) Gmail.is_send 1)
                (Gmail.send_reply w email_id reply_text)).
  { unfold Gmail.send_reply.
    apply (emits_bind_le _ _ 0 1); [lia | |].
    - apply emits_get_service; [by intros [] | by intros []].
    - intros service. cbv zeta.
      apply (emits_bind_le _ _ 0 1); [lia | by apply emits_call |].
      intros original.
      apply (emits_bind_le _ _ 0 1); [lia | apply emits_lift |].
      intros encoded.
      apply (emits_bind_le _ _ 1 0); [lia | by apply emits_call |].
      intros sent. apply emits_ret. }
  destruct (H σ) as (new & E & Q & C). by exists new.
Qed.

(** ** The reply that is sent *)




Example reply_subject_kept :
  Gmail.events (snd (Gmail.send_reply
                       (Gmail.mkWorld "token.json" "credentials.json"
                          (fun _ _ => Gmail.Loaded Gmail.sample_creds)
                          (fun _ c => Ok c) (fun _ _ _ => Ok Gmail.sample_creds)
                          (fun _ _ _ => Gmail.Written) (fun _ _ => Ok tt)
                          (fun _ _ => Ok None) (fun _ _ _ => Ok ∅)
                          (fun _ _ _ _ _ => Ok None)
                          (fun _ _ _ _ _ =>
                             Ok (Gmail.mkMessage (Some "m1") (Some "t1") None None
                                   (Some (Gmail.mkPart None
                                            (Some [Gmail.header "subject" "RE: offer"])
                                            None None))))
                          (fun _ _ _ => Raise (Exception "HttpError(503)"))
                          (fun _ _ _ _ => Raise (Exception "HttpError(503)"))
                          (fun d => Ok d)
                          (fun m => Ok (default "" (default None
                                          (assoc "Subject" (Gmail.mime_headers m)))))
                          (fun _ => "") (fun t => t))
                       "m1" "Thanks" Gmail.sample_state))
  = [Gmail.Build Gmail.sample_creds (Ok tt);
     Gmail.MessagesGet "me" "m1" "metadata" (Some ["Subject"; "From"; "To"])
       (Ok (Gmail.mkMessage (Some "m1") (Some "t1") None None
              (Some (Gmail.mkPart None (Some [Gmail.header "subject" "RE: offer"])
                       None None))));
     Gmail.MessagesSend "me" (Gmail.mkSendBody "RE: offer" (Some "t1"))
       (Raise (Exception "HttpError(503)"))].
Proof. reflexivity. Qed.

(** ** The emails that are fetched *)

Lemma fetch_each_grows (w : Gmail.World) (user_id : string) (messages : list Gmail.Obj)
    (acc : list Gmail.Email) (σ : Gmail.State) :
  exists new,
    Gmail.events (snd (Gmail.fetch_each w user_id messages acc σ)) = Gmail.events σ ++ new.
Proof.
  destruct (emits_fetch_each w (fun _ => True) (fun _ => false) user_id messages acc
              (fun _ _ => I) (fun _ _ => eq_refl) σ) as (new & E & _).
  by exists new.
Qed.

Lemma fetch_each_cons (w : Gmail.World) (user_id : string) (meta : Gmail.Obj)
    (rest : list Gmail.Obj) (acc : list Gmail.Email) (σ : Gmail.State) :
  Gmail.fetch_each w user_id (meta :: rest) acc σ
  = match meta !! "id" with
    | None => (Raise (Exception "KeyError('id')"), σ)
    | Some msg_id =>
        let r := Gmail.messages_get w (Gmail.events σ) user_id msg_id "full" None in
        let σ1 := Gmail.mkGState (Gmail.files σ)
                    (Gmail.events σ ++ [Gmail.MessagesGet user_id msg_id "full" None r]) in
        match r with
        | Raise e => (Raise e, σ1)
        | Ok msg =>
            let payload := default Gmail.no_payload (Gmail.payload msg) in
            let hs := default [] (Gmail.headers payload) in
            match Gmail._decode_body w payload with
            | Raise e => (Raise e, σ1)
            | Ok body =>
                Gmail.fetch_each w user_id rest
                  (acc ++ [Gmail.mkEmail msg_id (Gmail.threadId msg)
                             (PyStr.or_empty (Gmail._extract_header hs "Subject"))
                             (PyStr.or_empty (Gmail._extract_header hs "From"))
                             (default "" (Gmail.snippet msg)) body])
                  σ1
            end
        end
    end.
Proof.
  simpl. unfold mbind, Gmail.G_bind, Gmail.subscript.
  destruct (meta !! "id") as [msg_id|]; [|done].
  unfold mret, Gmail.G_ret, Gmail.call, Gmail.lift. cbv zeta. cbv beta iota.
  destruct (Gmail.messages_get w (Gmail.events σ) user_id msg_id "full" None)
    as [msg|e]; [|done].
  cbv beta iota. by destruct (Gmail._decode_body w _).
Qed.

Lemma fetch_each_ok (w : Gmail.World) (user_id : string) (messages : list Gmail.Obj) :
  forall (acc : list Gmail.Email) (σ σ' : Gmail.State) (emails : list Gmail.Email),
    Gmail.fetch_each w user_id messages acc σ = (Ok emails, σ') ->
    Gmail.files σ' = Gmail.files σ
    /\ exists fetched,
         emails = acc ++ fetched
         /\ Forall2 (fun meta e => meta !! "id" = Some (Gmail.email_id e)) messages fetched
         /\ Forall (fun e =>
                      exists msg,
                        Gmail.MessagesGet user_id (Gmail.email_id e) "full" None (Ok msg)
                          ∈ Gmail.events σ'
                        /\ Gmail.describes w msg e) fetched.
Proof.
  induction messages as [|meta rest IH]; intros acc σ σ' emails H.
  - simpl in H. injection H as <- <-. split; [done|]. exists [].
    rewrite app_nil_r. by repeat split.
  - rewrite fetch_each_cons in H.
    destruct (meta !! "id") as [msg_id|] eqn:Hid; [|done]. cbv zeta in H.
    destruct (Gmail.messages_get w (Gmail.events σ) user_id msg_id "full" None)
      as [msg|e] eqn:Hget; [|done].
    destruct (Gmail._decode_body w _) as [body|e] eqn:Hbody; [|done].
    pose proof (fetch_each_grows w user_id rest
                  (acc ++ [Gmail.mkEmail msg_id (Gmail.threadId msg)
                     (PyStr.or_empty (Gmail._extract_header
                        (default [] (Gmail.headers
                           (default Gmail.no_payload (Gmail.payload msg)))) "Subject"))
                     (PyStr.or_empty (Gmail._extract_header
                        (default [] (Gmail.headers
                           (default Gmail.no_payload (Gmail.payload msg)))) "From"))
                     (default "" (Gmail.snippet msg)) body])
                  (Gmail.mkGState (Gmail.files σ)
                     (Gmail.events σ ++ [Gmail.MessagesGet user_id msg_id "full" None (Ok msg)])))
      as (new & Hgrow).
    rewrite H in Hgrow. simpl in Hgrow.
    destruct (IH _ _ _ _ H) as (Hfiles & fetched & -> & Hids & Hdesc).
    split; [exact Hfiles|].
    eexists (_ :: fetched). split; [by rewrite <- app_assoc|]. split.
    + constructor; [exact Hid | exact Hids].
    + constructor; [|exact Hdesc].
      exists msg. split; [|by repeat split].
      rewrite Hgrow. simpl Gmail.email_id.
      apply elem_of_app. left. apply elem_of_app. right. apply elem_of_cons. by left.
Qed.

(** X21. When [fetch_unread_emails] returns, it returns one entry per
    message of the listing, in the order of the listing and under the ids of
    the listing; each entry describes the message that was fetched under its
    id: thread, snippet, "Subject" and "From" (empty strings when missing)
    and decoded body.  The listing asked for is the unread messages of the
    inbox, at most [limit] of them.  There is no partial answer: if one
    message cannot be fetched or decoded, the whole call raises. *)
Theorem fetch_unread_emails_result (w : Gmail.World) (limit : Z)
    (σ σ' : Gmail.State) (emails : list Gmail.Email) :
  Gmail.fetch_unread_emails w limit σ = (Ok emails, σ') ->
  exists c σ1 response,
    Gmail._get_gmail_service w σ = (Ok c, σ1)
    /\ Gmail.messages_list w (Gmail.events σ1) "me" ["INBOX"] "is:unread" limit
       = Ok response
    /\ Forall2 (fun meta e => meta !! "id" = Some (Gmail.email_id e))
               (default [] response) emails
    /\ Forall (fun e =>
                 exists msg,
                   Gmail.MessagesGet "me" (Gmail.email_id e) "full" None (Ok msg)
                     ∈ Gmail.events σ'
                   /\ Gmail.describes w msg e) emails.
Proof.
  unfold Gmail.fetch_unread_emails, mbind, Gmail.G_bind. intros H.
  destruct (Gmail._get_gmail_service w σ) as [[c|e] σ1]; [|done].
  unfold Gmail.call in H. cbv zeta in H.
  destruct (Gmail.messages_list w (Gmail.events σ1) "me" ["INBOX"] "is:unread" limit)
    as [response|e] eqn:Hlist; [|done].
  cbv beta iota in H.
  apply fetch_each_ok in H as (_ & fetched & -> & Hids & Hdesc).
  by exists c, σ1, response.
Qed.

Lemma fetch_unread_emails_result_witness :
  exists c σ1 response,
    Gmail._get_gmail_service Gmail.sample_world Gmail.sample_state = (Ok c, σ1)
    /\ Gmail.messages_list Gmail.sample_world (Gmail.events σ1) "me" ["INBOX"]
         "is:unread" 20 = Ok response
    /\ Forall2 (fun meta e => meta !! "id" = Some (Gmail.email_id e))
               (default [] response)
               (default [] (match fst (Gmail.fetch_unread_emails Gmail.sample_world 20
                                         Gmail.sample_state) with
                            | Ok emails => Some emails
                            | Raise _ => None
                            end))
    /\ Forall (fun e =>
                 exists msg,
                   Gmail.MessagesGet "me" (Gmail.email_id e) "full" None (Ok msg)
                     ∈ Gmail.events
                         (snd (Gmail.fetch_unread_emails Gmail.sample_world 20
                                 Gmail.sample_state))
                   /\ Gmail.describes Gmail.sample_world msg e)
              (default [] (match fst (Gmail.fetch_unread_emails Gmail.sample_world 20
                                        Gmail.sample_state) with
                           | Ok emails => Some emails
                           | Raise _ => None
                           end)).
Proof.
  apply (fetch_unread_emails_result Gmail.sample_world 20 Gmail.sample_state).
  reflexivity.
Defined.

Example fetch_sample :
  fst (Gmail.fetch_unread_emails Gmail.sample_world 20 Gmail.sample_state)
  = Ok [Gmail.mkEmail "m1" (Some "t-m1") "Invoice 7" "ann@example.org" "Hello"
          "decoded:aGk=";
        Gmail.mkEmail "m2" (Some "t-m2") "Invoice 7" "ann@example.org" "Hello"
          "decoded:aGk="].
Proof. reflexivity. Qed.
